(** * Monitoring your TensorFlow scripts: the notebook's configuration data
      and its sequence of SDK calls

    The development embeds the code cells of
    [1_Monitoring_your_TensorFlow_scripts.ipynb].  The notebook owns no
    algorithm: it authors a list of metric definitions (name, regular
    expression), builds a few strings, and sequences calls into the SageMaker
    SDK, the experiments SDK and IPython.  Accordingly the embedding has three
    layers:

    - Python values and string literals ([pyval], [PyStr.literal]);
    - the regular-expression fragment in which the metric patterns are
      written ([Re.parse], [Re.search]);
    - the notebook cells as programs over a global environment whose only
      effects are calls into code the notebook does not own ([prog]). *)

From stdpp Require Import base gmap strings pretty.
From Stdlib Require Import ZArith QArith Ascii String.
From stdpp Require Import list.

Set Warnings "-register-all".
Local Open Scope string_scope.
Local Open Scope list_scope.

(** ** Python string literals *)

Module PyStr.

(** The characters of a (non-raw) Python string literal, given the text
    between its quotes: a backslash followed by a backslash, a quote, [n] or
    [t] is the escape sequence of that character; any other backslash is
    kept, as Python keeps unrecognised escapes. *)
Fixpoint unescape (cs : list ascii) : list ascii :=
  match cs with
  | [] => []
  | "\"%char :: c :: rest =>
      if Ascii.eqb c "\" then "\"%char :: unescape rest
      else if Ascii.eqb c "'" then "'"%char :: unescape rest
      else if Ascii.eqb c "034" then "034"%char :: unescape rest
      else if Ascii.eqb c "n" then "010"%char :: unescape rest
      else if Ascii.eqb c "t" then "009"%char :: unescape rest
      else "\"%char :: c :: unescape rest
  | c :: rest => c :: unescape rest
  end.

Definition literal (src : string) : string :=
  string_of_list_ascii (unescape (list_ascii_of_string src)).

End PyStr.

(** ** Python values *)

(** The values the notebook's cells handle.  A [dict] literal with string
    keys is a finite map; objects created by the SDKs are opaque handles, their
    attributes live on the SDK's side. *)
Inductive pyval :=
| VNone
| VEllipsis
| VBool (b : bool)
| VInt (z : Z)
| VFloat (q : Q)
| VStr (s : string)
| VList (l : list pyval)
| VDict (d : gmap string pyval)
| VObj (h : N).

(** [{k1: v1, ..., kn: vn}]: the entries are inserted from left to right. *)
Definition dict_literal (kvs : list (string * pyval)) : pyval :=
  VDict (foldl (fun d kv => <[kv.1 := kv.2]> d) ∅ kvs).

(** ** Regular expressions of the metric patterns *)

Module Re.

Inductive cset_item :=
| CChar (c : ascii)
| CRange (lo hi : ascii).

(** Patterns: literals, [.], bracket sets, alternation, the repetitions
    [*], [+], [?] (greedy, or lazy when followed by [?]), capturing groups
    numbered by their opening parenthesis, and non-capturing groups. *)
Inductive regex :=
| Eps
| Chr (c : ascii)
| AnyChar
| Class (negated : bool) (items : list cset_item)
| Seq (r1 r2 : regex)
| Alt (r1 r2 : regex)
| Star (greedy : bool) (r : regex)
| Plus (greedy : bool) (r : regex)
| Opt (greedy : bool) (r : regex)
| Group (i : nat) (r : regex)
| NonCapt (r : regex).

(** Number of capturing groups ([re.compile(p).groups]). *)
Fixpoint ngroups (r : regex) : nat :=
  match r with
  | Eps | Chr _ | AnyChar | Class _ _ => 0
  | Seq r1 r2 | Alt r1 r2 => ngroups r1 + ngroups r2
  | Star _ r | Plus _ r | Opt _ r | NonCapt r => ngroups r
  | Group _ r => S (ngroups r)
  end.

(** *** Parsing *)

Definition is_alnum (c : ascii) : bool :=
  let n := N_of_ascii c in
  ((48 <=? n) && (n <=? 57) || (65 <=? n) && (n <=? 90)
   || (97 <=? n) && (n <=? 122))%N.

(** One member of a bracket set: a character, possibly escaped. Escapes of
    letters and digits (character classes, control characters) are outside
    the fragment. *)
Definition class_char (s : list ascii) : option (ascii * list ascii) :=
  match s with
  | "\"%char :: c :: t => if is_alnum c then None else Some (c, t)
  | "\"%char :: [] => None
  | c :: t => Some (c, t)
  | [] => None
  end.

(** The members of a bracket set up to its closing bracket. [first] is true
    at the first member, where a closing bracket stands for itself. *)
Fixpoint class_items (fuel : nat) (first : bool) (s : list ascii)
  : option (list cset_item * list ascii) :=
  match fuel with
  | O => None
  | S fuel =>
      match s with
      | [] => None
      | "]"%char :: t =>
          if first then
            '(items, t') ← class_items fuel false t;
            Some (CChar "]" :: items, t')
          else Some ([], t)
      | _ =>
          '(lo, t) ← class_char s;
          match t with
          | "-"%char :: "]"%char :: t' =>
              Some ([CChar lo; CChar "-"], t')
          | "-"%char :: t' =>
              '(hi, t'') ← class_char t';
              if (N_of_ascii lo <=? N_of_ascii hi)%N then
                '(items, t3) ← class_items fuel false t'';
                Some (CRange lo hi :: items, t3)
              else None
          | _ =>
              '(items, t') ← class_items fuel false t;
              Some (CChar lo :: items, t')
          end
      end
  end.

Definition parse_class (s : list ascii) : option (regex * list ascii) :=
  match s with
  | "^"%char :: t =>
      '(items, t') ← class_items (S (length t)) true t;
      Some (Class true items, t')
  | _ =>
      '(items, t') ← class_items (S (length s)) true s;
      Some (Class false items, t')
  end.

(** A repetition operator after an atom, with its laziness mark. *)
Definition quantified (r : regex) (s : list ascii) : regex * list ascii :=
  match s with
  | "*"%char :: "?"%char :: t => (Star false r, t)
  | "*"%char :: t => (Star true r, t)
  | "+"%char :: "?"%char :: t => (Plus false r, t)
  | "+"%char :: t => (Plus true r, t)
  | "?"%char :: "?"%char :: t => (Opt false r, t)
  | "?"%char :: t => (Opt true r, t)
  | _ => (r, s)
  end.

(** A second repetition operator directly after a quantified atom is the
    error "multiple repeat". *)
Definition repeat_follows (s : list ascii) : bool :=
  match s with
  | "*"%char :: _ | "+"%char :: _ | "?"%char :: _ => true
  | _ => false
  end.

(** Recursive descent; [g] is the number of the next capturing group.
    [None]: the text is not a pattern of the fragment (malformed, or using
    constructs the fragment lacks: anchors, counted repetition, escapes of
    letters and digits, group extensions other than [(?:]). *)
Fixpoint parse_alt (fuel : nat) (s : list ascii) (g : nat)
  : option (regex * list ascii * nat) :=
  match fuel with
  | O => None
  | S fuel =>
      '(r1, t, g1) ← parse_seq fuel s g;
      match t with
      | "|"%char :: t' =>
          '(r2, t'', g2) ← parse_alt fuel t' g1;
          Some (Alt r1 r2, t'', g2)
      | _ => Some (r1, t, g1)
      end
  end
with parse_seq (fuel : nat) (s : list ascii) (g : nat)
  : option (regex * list ascii * nat) :=
  match fuel with
  | O => None
  | S fuel =>
      match s with
      | [] => Some (Eps, s, g)
      | "|"%char :: _ | ")"%char :: _ => Some (Eps, s, g)
      | _ =>
          '(a, t, g1) ← parse_atom fuel s g;
          let '(q, t') := quantified a t in
          if repeat_follows t' then None
          else
            '(rest, t'', g2) ← parse_seq fuel t' g1;
            Some (match rest with Eps => q | _ => Seq q rest end, t'', g2)
      end
  end
with parse_atom (fuel : nat) (s : list ascii) (g : nat)
  : option (regex * list ascii * nat) :=
  match fuel with
  | O => None
  | S fuel =>
      match s with
      | [] => None
      | "."%char :: t => Some (AnyChar, t, g)
      | "["%char :: t => '(r, t') ← parse_class t; Some (r, t', g)
      | "("%char :: "?"%char :: ":"%char :: t =>
          '(r, t', g1) ← parse_alt fuel t g;
          match t' with
          | ")"%char :: t'' => Some (NonCapt r, t'', g1)
          | _ => None
          end
      | "("%char :: "?"%char :: _ => None
      | "("%char :: t =>
          '(r, t', g1) ← parse_alt fuel t (S g);
          match t' with
          | ")"%char :: t'' => Some (Group g r, t'', g1)
          | _ => None
          end
      | "\"%char :: c :: t =>
          if is_alnum c then None else Some (Chr c, t, g)
      | "\"%char :: [] => None
      | "*"%char :: _ | "+"%char :: _ | "?"%char :: _ => None
      | "{"%char :: _ | "^"%char :: _ | "$"%char :: _ => None
      | c :: t => Some (Chr c, t, g)
      end
  end.

(** [re.compile]: the whole text must be consumed (a closing parenthesis
    left over is unbalanced). *)
Definition parse (p : string) : option regex :=
  let s := list_ascii_of_string p in
  '(r, t, _) ← parse_alt (3 * length s + 3) s 1;
  match t with
  | [] => Some r
  | _ => None
  end.

Definition groups_of (p : string) : option nat := ngroups <$> parse p.

(** *** Matching *)

Definition in_item (c : ascii) (it : cset_item) : bool :=
  match it with
  | CChar c' => Ascii.eqb c c'
  | CRange lo hi =>
      ((N_of_ascii lo <=? N_of_ascii c) && (N_of_ascii c <=? N_of_ascii hi))%N
  end.

Definition in_class (negated : bool) (items : list cset_item) (c : ascii)
  : bool :=
  xorb negated (existsb (in_item c) items).

(** Text captured by each group that took part in the match. *)
Abbreviation captures := (gmap nat (list ascii)).

(** What remains to be matched after a sub-pattern: it receives the text the
    sub-pattern consumed, the rest of the subject and the captures. *)
Abbreviation cont := (list ascii -> list ascii -> captures -> option captures).

(** Zero or more iterations of [step] (the matcher of the repeated
    pattern) and then [k].  A greedy repetition prefers one more iteration,
    a lazy one prefers to stop; an iteration that consumes nothing ends the
    repetition.  [acc] is the text consumed so far. *)
Fixpoint star_loop (step : list ascii -> captures -> cont -> option captures)
  (greedy : bool) (k : cont) (fuel : nat) (acc s : list ascii)
  (caps : captures) : option captures :=
  let more :=
    match fuel with
    | O => None
    | S fuel' =>
        step s caps (fun m1 s1 caps1 =>
          if (length s1 <? length s)%nat
          then star_loop step greedy k fuel' (acc ++ m1) s1 caps1
          else None)
    end in
  if greedy then
    match more with Some c => Some c | None => k acc s caps end
  else
    match k acc s caps with Some c => Some c | None => more end.

(** Backtracking matcher: [m r s caps k] matches [r] at the start of [s]
    and hands what follows to [k].  Alternatives are tried in the order of
    the pattern. *)
Fixpoint m (r : regex) (s : list ascii) (caps : captures) (k : cont)
  {struct r} : option captures :=
  match r with
  | Eps => k [] s caps
  | Chr c =>
      match s with
      | c' :: s' => if Ascii.eqb c c' then k [c'] s' caps else None
      | [] => None
      end
  | AnyChar =>
      match s with
      | c' :: s' => if Ascii.eqb c' "010" then None else k [c'] s' caps
      | [] => None
      end
  | Class negated items =>
      match s with
      | c' :: s' => if in_class negated items c' then k [c'] s' caps else None
      | [] => None
      end
  | Seq r1 r2 =>
      m r1 s caps (fun m1 s1 caps1 =>
        m r2 s1 caps1 (fun m2 s2 caps2 => k (m1 ++ m2) s2 caps2))
  | Alt r1 r2 =>
      match m r1 s caps k with
      | Some c => Some c
      | None => m r2 s caps k
      end
  | Star greedy r' => star_loop (m r') greedy k (length s) [] s caps
  | Plus greedy r' =>
      m r' s caps (fun m1 s1 caps1 =>
        star_loop (m r') greedy k (length s1) m1 s1 caps1)
  | Opt greedy r' =>
      if greedy then
        match m r' s caps k with
        | Some c => Some c
        | None => k [] s caps
        end
      else
        match k [] s caps with
        | Some c => Some c
        | None => m r' s caps k
        end
  | Group i r' => m r' s caps (fun m1 s1 caps1 => k m1 s1 (<[i := m1]> caps1))
  | NonCapt r' => m r' s caps k
  end.

(** A match at the start of [s]; group 0 is the whole match. *)
Definition match_here (r : regex) (s : list ascii) : option captures :=
  m r s ∅ (fun m0 _ caps => Some (<[0%nat := m0]> caps)).

(** [re.search]: the leftmost position at which the pattern matches. *)
Fixpoint search_from (r : regex) (s : list ascii) : option captures :=
  match match_here r s with
  | Some c => Some c
  | None =>
      match s with
      | [] => None
      | _ :: s' => search_from r s'
      end
  end.

(** [Match.groups()]: the text of groups 1 to n, in order. *)
Definition groups (r : regex) (caps : captures)
  : list (option (list ascii)) :=
  (fun i => caps !! i) <$> seq 1 (ngroups r).

(** [re.search(p, line)] followed by [.groups()], on strings. [None] when
    the text is no pattern of the fragment or nothing matches. *)
Definition search (p line : string) : option (list (option string)) :=
  r ← parse p;
  caps ← search_from r (list_ascii_of_string line);
  Some (fmap (M := option) string_of_list_ascii <$> groups r caps).

(** *** Decimal numbers *)

Definition is_digit (c : ascii) : bool :=
  let n := N_of_ascii c in ((48 <=? n) && (n <=? 57))%N.

(** The leading digits of a text, and what follows them. *)
Fixpoint span_digits (cs : list ascii) : list ascii * list ascii :=
  match cs with
  | c :: t =>
      if is_digit c then
        let '(ds, rest) := span_digits t in (c :: ds, rest)
      else ([], cs)
  | [] => ([], [])
  end.

(** Digits, optionally followed by a point and more digits: the text
    [float] reads back as the printed metric value. *)
Definition decimal (cs : list ascii) : bool :=
  match span_digits cs with
  | ([], _) => false
  | (_, []) => true
  | (_, "."%char :: fp) =>
      match fp with
      | [] => false
      | _ => forallb is_digit fp
      end
  | _ => false
  end.

(** *** Shapes used in the proofs *)

(** The bracket set of the metric patterns, and one or more of its
    members. *)
Definition number_set : list cset_item := [CRange "0" "9"; CChar "."].

Abbreviation number := (Plus true (Class false number_set)).

(** A non-empty text made of members of the set. *)
Definition numeral (n : list ascii) : Prop :=
  n ≠ [] ∧ Forall (λ c, in_class false number_set c = true) n.

(** A text ends a run of members of a bracket set when it is empty or
    starts with a character outside the set. *)
Definition stops (negated : bool) (items : list cset_item) (s : list ascii)
  : Prop :=
  match s with
  | [] => True
  | c :: _ => in_class negated items c = false
  end.

(** A run of literal characters followed by [r]: the shape the parser
    gives to literal text. *)
Definition lit (cs : list ascii) (r : regex) : regex :=
  foldr (λ c r, Seq (Chr c) r) r cs.

End Re.

(** ** The metric definitions *)

(** The example of the introduction (the [metric_definitions] argument of the
    estimator shown in the first section). *)
Definition example_metric_definitions : pyval :=
  VList [
    dict_literal [("Name", VStr (PyStr.literal "train:error"));
                  ("Regex", VStr (PyStr.literal "Train_error=(.*?);"))];
    dict_literal [("Name", VStr (PyStr.literal "validation:error"));
                  ("Regex", VStr (PyStr.literal "Valid_error=(.*?);"))]
  ].

(** The list the notebook assigns to [metric_definitions]. *)
Definition metric_definitions : pyval :=
  VList [
    dict_literal [("Name", VStr (PyStr.literal "train:loss"));
                  ("Regex", VStr (PyStr.literal
                     "loss: ([0-9\\.]+) - acc: [0-9\\.]+"))];
    dict_literal [("Name", VStr (PyStr.literal "train:accuracy"));
                  ("Regex", VStr (PyStr.literal
                     "loss: [0-9\\.]+ - acc: ([0-9\\.]+)"))];
    dict_literal [("Name", VStr (PyStr.literal "validation:accuracy"));
                  ("Regex", VStr (PyStr.literal
                     "val_loss: [0-9\\.]+ - val_acc: ([0-9\\.]+)"))];
    dict_literal [("Name", VStr (PyStr.literal "validation:loss"));
                  ("Regex", VStr (PyStr.literal
                     "val_loss: ([0-9\\.]+) - val_acc: [0-9\\.]+"))]
  ].

(** The records of a list of dicts, and a string field of a record. *)
Definition records (v : pyval) : list (gmap string pyval) :=
  match v with
  | VList l =>
      omap (fun x => match x with VDict d => Some d | _ => None end) l
  | _ => []
  end.

Definition str_field (key : string) (d : gmap string pyval) : option string :=
  match d !! key with
  | Some (VStr s) => Some s
  | _ => None
  end.

(** A metric definition as the job-submission API takes it: exactly the
    fields [Name] and [Regex], both strings, the latter a pattern with one
    capturing group. *)
Definition metric_record (v : pyval) : Prop :=
  ∃ (d : gmap string pyval) (name regex : string),
    v = VDict d ∧ dom d = {["Name"; "Regex"]} ∧
    d !! "Name" = Some (VStr name) ∧ d !! "Regex" = Some (VStr regex) ∧
    Re.groups_of regex = Some 1%nat.

Definition metric_list (v : pyval) : Prop :=
  ∃ l : list pyval, v = VList l ∧ Forall metric_record l.

Definition metric_names (v : pyval) : list string :=
  omap (str_field "Name") (records v).

Definition metric_regexes (v : pyval) : list string :=
  omap (str_field "Regex") (records v).

(** ** Programs over the SDKs *)

(** What a cell calls: a function or class it imported, under the name the
    cell uses, or a method of an object. *)
Inductive callee :=
| Fn (name : string)
| Method (self : pyval) (name : string).

(** The interactions of the notebook with code it does not own.  A method
    call is one interaction (lookup of the method and call). *)
Inductive event :=
| Import (what : string)
| Call (f : callee) (args : list pyval) (kwargs : list (string * pyval))
| GetAttr (obj : pyval) (attr : string)
| SetAttr (target : string) (v : pyval).

(** The answer to an interaction: a value, or an exception named by its
    class. *)
Inductive response :=
| Returned (v : pyval)
| Raised (exn : string).

Inductive prog (A : Type) : Type :=
| Ret (a : A)
| Throw (exn : string)
| Vis (e : event) (k : pyval -> prog A).
Arguments Ret {A} a.
Arguments Throw {A} exn.
Arguments Vis {A} e k.

Fixpoint bind {A B : Type} (p : prog A) (f : A -> prog B) : prog B :=
  match p with
  | Ret a => f a
  | Throw x => Throw x
  | Vis e k => Vis e (fun v => bind (k v) f)
  end.

#[global] Instance prog_ret : MRet prog := @Ret.
#[global] Instance prog_bind : MBind prog := fun A B f p => bind p f.

Definition trigger (e : event) : prog pyval := Vis e Ret.

(** The global names of the kernel. *)
Abbreviation env := (gmap string pyval).

(** *** Expressions *)

Definition name (ρ : env) (x : string) : prog pyval :=
  match ρ !! x with
  | Some v => Ret v
  | None => Throw "NameError"
  end.

Definition import (what : string) : prog pyval := trigger (Import what).

Definition call (f : string) (args : list pyval)
  (kwargs : list (string * pyval)) : prog pyval :=
  trigger (Call (Fn f) args kwargs).

(** Built-in values have none of the attributes and methods the notebook
    uses, which are those of SDK objects. *)
Definition is_object (v : pyval) : prog unit :=
  match v with
  | VObj _ => Ret tt
  | _ => Throw "AttributeError"
  end.

Definition getattr (v : pyval) (attr : string) : prog pyval :=
  is_object v ≫= fun _ => trigger (GetAttr v attr).

(** [self.meth]: the method is looked up before the arguments are
    evaluated. *)
Definition method (self : pyval) (meth : string) : prog callee :=
  is_object self ≫= fun _ => Ret (Method self meth).

Definition invoke (f : callee) (args : list pyval)
  (kwargs : list (string * pyval)) : prog pyval :=
  trigger (Call f args kwargs).

(** [a + v] where [a] is a string, as in every sum of the notebook; SDK
    objects define no reflected addition. *)
Definition str_add (a : pyval) (v : pyval) : prog pyval :=
  match a, v with
  | VStr a, VStr b => Ret (VStr (a +:+ b))
  | _, _ => Throw "TypeError"
  end.

(** Truncation towards zero. *)
Definition trunc (q : Q) : Z := Z.quot (Qnum q) (Z.pos (Qden q)).

(** [int(v)] for the numbers a clock can return. *)
Definition py_int (v : pyval) : prog Z :=
  match v with
  | VFloat q => Ret (trunc q)
  | VInt z => Ret z
  | VBool b => Ret (if b then 1%Z else 0%Z)
  | _ => Throw "TypeError"
  end.

(** The value of a keyword argument. *)
Fixpoint kwarg (key : string) (kwargs : list (string * pyval)) : option pyval :=
  match kwargs with
  | [] => None
  | (k, v) :: rest => if String.eqb k key then Some v else kwarg key rest
  end.

(** *** The cells *)

Section Notebook.

(** The cells that construct the estimator are left to the reader
    ([estimator = ...]), with the instruction to repeat the estimator
    configuration of the previous job and to add the argument
    [metric_definitions=metric_definitions].  The configuration is not part
    of the notebook: its keyword arguments are values computed from the
    global names, or an exception. *)
Variable estimator_config : env -> string + list (string * pyval).

Definition cell_03 (ρ : env) : prog env :=
  Ret (<["metric_definitions" := metric_definitions]> ρ).

Definition cell_05 (ρ : env) : prog env :=
  _ ← import "os";
  _ ← import "sagemaker";
  _ ← import "sagemaker.get_execution_role";
  session ← call "sagemaker.Session" [] [];
  let ρ := <["sagemaker_session" := session]> ρ in
  role ← call "get_execution_role" [] [];
  let ρ := <["role" := role]> ρ in
  Ret ρ.

Definition cell_07 (ρ : env) : prog env :=
  _ ← import "smexperiments.experiment.Experiment";
  _ ← import "smexperiments.trial.Trial";
  _ ← import "time";
  experiment ← call "Experiment.load" []
    [("experiment_name", VStr (PyStr.literal "TensorFlow-cifar10-experiment"))];
  Ret (<["cifar10_experiment" := experiment]> ρ).

Definition cell_08 (ρ : env) : prog env :=
  now ← call "time.time" [] [];
  seconds ← py_int now;
  let ρ := <["trial_name" :=
               VStr (PyStr.literal "cifar10-training-job-" +:+ pretty seconds)]> ρ in
  trial_name ← name ρ "trial_name";
  experiment ← name ρ "cifar10_experiment";
  experiment_name ← getattr experiment "experiment_name";
  trial ← call "Trial.create" []
    [("trial_name", trial_name); ("experiment_name", experiment_name)];
  Ret (<["trial" := trial]> ρ).

Definition cell_09 (ρ : env) : prog env :=
  session ← name ρ "sagemaker_session";
  upload_data ← method session "upload_data";
  location ← invoke upload_data []
    [("path", VStr (PyStr.literal "data"));
     ("key_prefix", VStr (PyStr.literal "data/DEMO-cifar10"))];
  let ρ := <["dataset_location" := location]> ρ in
  location ← name ρ "dataset_location";
  _ ← call "display" [location] [];
  Ret ρ.

(** [TensorFlow(<configuration>, metric_definitions=metric_definitions)]. *)
Definition estimator_expr (ρ : env) : prog pyval :=
  match estimator_config ρ with
  | inl exn => Throw exn
  | inr config =>
      definitions ← name ρ "metric_definitions";
      match kwarg "metric_definitions" config with
      | Some _ => Throw "TypeError"
      | None =>
          call "TensorFlow" [] (config ++ [("metric_definitions", definitions)])
      end
  end.

Definition cell_10 (ρ : env) : prog env :=
  _ ← import "sagemaker.tensorflow.TensorFlow";
  estimator ← estimator_expr ρ;
  Ret (<["estimator" := estimator]> ρ).

(** The dictionary the notebook tells the reader to pass as
    [experiment_config], the argument left blank in both [fit] cells. *)
Definition experiment_config (ρ : env) : prog pyval :=
  experiment ← name ρ "cifar10_experiment";
  experiment_name ← getattr experiment "experiment_name";
  trial ← name ρ "trial";
  trial_name ← getattr trial "trial_name";
  Ret (dict_literal [("ExperimentName", experiment_name);
                     ("TrialName", trial_name);
                     ("TrialComponentDisplayName",
                      VStr (PyStr.literal "Training"))]).

Definition channels : pyval :=
  dict_literal [("train", VStr (PyStr.literal "train_data_location"));
                ("validation", VStr (PyStr.literal "validation_data_location"));
                ("eval", VStr (PyStr.literal "eval_data_location"))].

Definition cell_12 (ρ : env) : prog env :=
  estimator ← name ρ "estimator";
  fit ← method estimator "fit";
  config ← experiment_config ρ;
  _ ← invoke fit [channels] [("experiment_config", config)];
  Ret ρ.

Definition cell_14 (ρ : env) : prog env :=
  _ ← import "IPython.core.display.Markdown";
  session ← name ρ "sagemaker_session";
  region ← getattr session "boto_region_name";
  link ← str_add
    (VStr (PyStr.literal
             "https://console.aws.amazon.com/cloudwatch/home?region="))
    region;
  link ← str_add link
    (VStr (PyStr.literal
             "#metricsV2:query=%7B/aws/sagemaker/TrainingJobs,TrainingJobName%7D%20"));
  estimator ← name ρ "estimator";
  job ← getattr estimator "latest_training_job";
  job_name ← getattr job "job_name";
  link ← str_add link job_name;
  let ρ := <["link" := link]> ρ in
  link ← name ρ "link";
  text ← str_add (VStr (PyStr.literal "CloudWatch metrics: [link](")) link;
  text ← str_add text (VStr (PyStr.literal ")"));
  md ← call "Markdown" [text] [];
  _ ← call "display" [md] [];
  md ← call "Markdown"
    [VStr (PyStr.literal
       "After you choose a metric, change the period to 1 Minute (Graphed Metrics -> Period)")]
    [];
  _ ← call "display" [md] [];
  Ret ρ.

Definition cell_17 (ρ : env) : prog env :=
  now ← call "time.time" [] [];
  seconds ← py_int now;
  let ρ := <["trial_name" :=
               VStr (PyStr.literal "cifar10-training-job-" +:+ pretty seconds)]> ρ in
  trial_name ← name ρ "trial_name";
  experiment ← name ρ "cifar10_experiment";
  experiment_name ← getattr experiment "experiment_name";
  trial ← call "Trial.create" []
    [("trial_name", trial_name); ("experiment_name", experiment_name)];
  Ret (<["trial" := trial]> ρ).

Definition cell_18 (ρ : env) : prog env :=
  estimator ← estimator_expr ρ;
  Ret (<["estimator" := estimator]> ρ).

Definition cell_19 (ρ : env) : prog env :=
  estimator ← name ρ "estimator";
  fit ← method estimator "fit";
  config ← experiment_config ρ;
  _ ← invoke fit [channels]
    [("experiment_config", config); ("wait", VBool false)];
  Ret ρ.

Definition cell_21 (ρ : env) : prog env :=
  _ ← import "IPython.core.display.Markdown";
  session ← name ρ "sagemaker_session";
  region ← getattr session "boto_region_name";
  link ← str_add (VStr (PyStr.literal "AWS_REGION=\'")) region;
  link ← str_add link (VStr (PyStr.literal "\' tensorboard --logdir "));
  estimator ← name ρ "estimator";
  model_dir ← getattr estimator "model_dir";
  link ← str_add link model_dir;
  let ρ := <["link" := link]> ρ in
  link ← name ρ "link";
  text ← str_add (VStr (PyStr.literal "TensorBoard command: ")) link;
  md ← call "Markdown" [text] [];
  _ ← call "display" [md] [];
  Ret ρ.

Definition search_expression : pyval :=
  dict_literal [("Filters", VList [
    dict_literal [("Name", VStr (PyStr.literal "DisplayName"));
                  ("Operator", VStr (PyStr.literal "Equals"));
                  ("Value", VStr (PyStr.literal "Training"))]])].

Definition cell_24 (ρ : env) : prog env :=
  Ret (<["search_expression" := search_expression]> ρ).

Definition cell_25 (ρ : env) : prog env :=
  _ ← import "pandas";
  _ ← trigger (SetAttr "pd.options.display.max_columns" (VInt 500));
  _ ← import "sagemaker.analytics.ExperimentAnalytics";
  session ← name ρ "sagemaker_session";
  experiment ← name ρ "cifar10_experiment";
  experiment_name ← getattr experiment "experiment_name";
  expression ← name ρ "search_expression";
  analytics ← call "ExperimentAnalytics" []
    [("sagemaker_session", session);
     ("experiment_name", experiment_name);
     ("search_expression", expression)];
  let ρ := <["trial_component_analytics" := analytics]> ρ in
  analytics ← name ρ "trial_component_analytics";
  dataframe ← method analytics "dataframe";
  table ← invoke dataframe [] [("force_refresh", VBool true)];
  let ρ := <["table" := table]> ρ in
  table ← name ρ "table";
  _ ← call "display" [table] [];
  Ret ρ.

(** The cells after the metric definitions, in the order of the notebook. *)
Definition later_cells : list (env -> prog env) :=
  [cell_05; cell_07; cell_08; cell_09; cell_10; cell_12; cell_14;
   cell_17; cell_18; cell_19; cell_21; cell_24; cell_25].

(** Running cells one after the other; an exception stops the run. *)
Fixpoint run_cells (cells : list (env -> prog env)) (ρ : env) : prog env :=
  match cells with
  | [] => Ret ρ
  | cell :: cells => cell ρ ≫= run_cells cells
  end.

Definition notebook : prog env := run_cells (cell_03 :: later_cells) ∅.

End Notebook.

(** *** Runs *)

Definition trace := list (event * response).

Inductive outcome (A : Type) : Type :=
| Done (a : A)
| Failed (exn : string).
Arguments Done {A} a.
Arguments Failed {A} exn.

(** The code outside the notebook: a state and the answer to each
    interaction. *)
Record world := World {
  wstate : Type;
  respond : wstate -> event -> response * wstate
}.

Fixpoint run {A : Type} (w : world) (σ : wstate w) (p : prog A)
  : trace * outcome A :=
  match p with
  | Ret a => ([], Done a)
  | Throw x => ([], Failed x)
  | Vis e k =>
      match respond w σ e with
      | (Returned v, σ') =>
          let '(t, o) := run w σ' (k v) in ((e, Returned v) :: t, o)
      | (Raised x, _) => ([(e, Raised x)], Failed x)
      end
  end.

(** [always p pre Q]: on every path of [p] (whatever the answers), the
    interactions so far, after [pre], and the way the path ends satisfy
    [Q]. *)
Fixpoint always {A : Type} (p : prog A) (pre : trace)
  (Q : trace -> outcome A -> Prop) : Prop :=
  match p with
  | Ret a => Q pre (Done a)
  | Throw x => Q pre (Failed x)
  | Vis e k =>
      (∀ x, Q (pre ++ [(e, Raised x)]) (Failed x)) ∧
      (∀ v, always (k v) (pre ++ [(e, Returned v)]) Q)
  end.

(** [sim R E p q]: fed the same answers, [p] and [q] make interactions
    related by [E] in the same order, stop at the same point with the same
    exception, or finish with results related by [R]. *)
Inductive sim {A : Type} (R : A -> A -> Prop) (E : event -> event -> Prop)
  : prog A -> prog A -> Prop :=
| sim_ret a b : R a b -> sim R E (Ret a) (Ret b)
| sim_throw x : sim R E (Throw x) (Throw x)
| sim_vis e1 e2 k1 k2 :
    E e1 e2 -> (∀ v, sim R E (k1 v) (k2 v)) -> sim R E (Vis e1 k1) (Vis e2 k2).

(** *** Reading traces *)

(** The calls of a trace to the function [f]: keyword arguments and answer. *)
Fixpoint calls (f : string) (t : trace)
  : list (list (string * pyval) * response) :=
  match t with
  | [] => []
  | (Call (Fn g) _ kwargs, r) :: t' =>
      if String.eqb g f then (kwargs, r) :: calls f t' else calls f t'
  | _ :: t' => calls f t'
  end.

(** The calls of a trace to the method [meth]: receiver, keyword arguments
    and answer. *)
Fixpoint method_calls (meth : string) (t : trace)
  : list (pyval * list (string * pyval) * response) :=
  match t with
  | [] => []
  | (Call (Method self g) _ kwargs, r) :: t' =>
      if String.eqb g meth then (self, kwargs, r) :: method_calls meth t'
      else method_calls meth t'
  | _ :: t' => method_calls meth t'
  end.

(** The answers to the reads of the attribute [attr]. *)
Fixpoint reads (attr : string) (t : trace) : list response :=
  match t with
  | [] => []
  | (GetAttr _ a, r) :: t' =>
      if String.eqb a attr then r :: reads attr t' else reads attr t'
  | _ :: t' => reads attr t'
  end.

(** Every job submission is made on an estimator that was constructed with
    the metric definitions as authored; [built] holds the estimators
    constructed so far. *)
Fixpoint submitted_as_authored (built : list pyval) (t : trace) : Prop :=
  match t with
  | [] => True
  | (Call (Fn f) _ kwargs, r) :: t' =>
      if String.eqb f "TensorFlow" then
        kwarg "metric_definitions" kwargs = Some metric_definitions ∧
        submitted_as_authored
          (match r with Returned v => v :: built | Raised _ => built end) t'
      else submitted_as_authored built t'
  | (Call (Method self meth) _ _, _) :: t' =>
      if String.eqb meth "fit" then
        self ∈ built ∧ submitted_as_authored built t'
      else submitted_as_authored built t'
  | _ :: t' => submitted_as_authored built t'
  end.

(** *** Blocking and non-blocking submission *)

(** Whether a call of [fit] waits for the job, given the default of the SDK
    for its [wait] parameter. *)
Definition fit_waits (default : bool) (kwargs : list (string * pyval))
  : option bool :=
  match kwarg "wait" kwargs with
  | None => Some default
  | Some (VBool b) => Some b
  | Some _ => None
  end.

(** [fit(inputs=None, wait=True, ...)]: the default the notebook's comment
    ("Use wait=False to run async jobs") relies on. *)
Definition fit_wait_default : bool := true.

(** Two interactions that are the same but for [wait=False], added to a
    call of [fit] that did not mention [wait]. *)
Definition adds_wait_false (e1 e2 : event) : Prop :=
  match e1 with
  | Call (Method self meth) args kwargs =>
      if String.eqb meth "fit" then
        kwarg "wait" kwargs = None ∧
        e2 = Call (Method self meth) args (kwargs ++ [("wait", VBool false)])
      else e2 = e1
  | _ => e2 = e1
  end.

(** *** Trial components and the analytics query *)

(** A trial component of the tracking service, by its properties. *)
Abbreviation trial_component := (gmap string pyval).

(** The component that a job submitted with the experiment configuration
    [config] is recorded as. *)
Definition component_of (config : pyval) : option trial_component :=
  match config with
  | VDict d =>
      e ← d !! "ExperimentName";
      t ← d !! "TrialName";
      n ← d !! "TrialComponentDisplayName";
      Some (<["DisplayName" := n]> (<["TrialName" := t]>
             (<["ExperimentName" := e]> ∅)))
  | _ => None
  end.

(** The components created by the job submissions of a trace. *)
Definition created (t : trace) : list trial_component :=
  omap (fun c : pyval * list (string * pyval) * response =>
          match c with
          | (_, kwargs, Returned _) => kwarg "experiment_config" kwargs ≫= component_of
          | _ => None
          end)
       (method_calls "fit" t).

Definition str_eq (a b : pyval) : bool :=
  match a, b with
  | VStr a, VStr b => String.eqb a b
  | _, _ => false
  end.

(** One filter of a search expression: the property [Name] of the component
    [Equals] the [Value].  Other operators are not modelled. *)
Definition filter_accepts (f : pyval) (c : trial_component) : bool :=
  match f with
  | VDict d =>
      match d !! "Name", d !! "Operator", d !! "Value" with
      | Some (VStr prop), Some (VStr op), Some value =>
          String.eqb op "Equals" &&
          match c !! prop with
          | Some v => str_eq v value
          | None => false
          end
      | _, _, _ => false
      end
  | _ => false
  end.

Definition filters_accept (expression : pyval) (c : trial_component) : bool :=
  match expression with
  | VDict d =>
      match d !! "Filters" with
      | Some (VList fs) => forallb (fun f => filter_accepts f c) fs
      | _ => false
      end
  | _ => false
  end.

(** What an [ExperimentAnalytics] built with the keyword arguments [kwargs]
    retrieves from the components [store] of the tracking service: those of
    the experiment that every filter accepts. *)
Definition retrieved (kwargs : list (string * pyval))
  (store : list trial_component) : list trial_component :=
  match kwarg "experiment_name" kwargs, kwarg "search_expression" kwargs with
  | Some n, Some expression =>
      List.filter (fun c =>
        match c !! "ExperimentName" with
        | Some e => str_eq e n && filters_accept expression c
        | None => false
        end) store
  | _, _ => []
  end.

(** "The analytics query retrieves exactly the trial components the
    notebook's training runs created", for a run with trace [t] against a
    tracking service holding [store]. *)
Definition retrieves_exactly_created (t : trace)
  (store : list trial_component) : Prop :=
  Forall (fun c : list (string * pyval) * response =>
            retrieved c.1 store = created t)
         (calls "ExperimentAnalytics" t).

(** *** Log lines *)

(** The part of a Keras epoch line that reports the metrics, between
    arbitrary text. *)
Definition epoch_line (pre loss acc val_loss val_acc post : string) : string :=
  pre +:+ "loss: " +:+ loss +:+ " - acc: " +:+ acc
      +:+ " - val_loss: " +:+ val_loss +:+ " - val_acc: " +:+ val_acc +:+ post.

Definition is_decimal (s : string) : bool := Re.decimal (list_ascii_of_string s).

(** The text has none of the two characters. *)
Definition free_of (a b : ascii) (s : string) : bool :=
  forallb (fun c => negb (Ascii.eqb c a) && negb (Ascii.eqb c b))
          (list_ascii_of_string s).

(** The text does not start with a digit or a point. *)
Definition ends_number (s : string) : bool :=
  match s with
  | EmptyString => true
  | String c _ => negb (Re.is_digit c) && negb (Ascii.eqb c ".")
  end.

(** ** Statements about runs *)

(** [always] along a list of cells. *)
Fixpoint always_cells (cells : list (env -> prog env)) (ρ : env) (pre : trace)
  (Q : trace -> outcome env -> Prop) : Prop :=
  match cells with
  | [] => Q pre (Done ρ)
  | cell :: cells =>
      always (cell ρ) pre (λ t o,
        match o with
        | Done ρ' => always_cells cells ρ' t Q
        | Failed x => Q t (Failed x)
        end)
  end.

Definition list_reaches_submission (t : trace) (o : outcome env) : Prop :=
  submitted_as_authored [] t ∧
  ∀ ρ, o = Done ρ → ρ !! "metric_definitions" = Some metric_definitions.

(** Whether a run reached its end, and the value it then binds to a name. *)
Definition completed {A : Type} (o : outcome A) : bool :=
  match o with
  | Done _ => true
  | Failed _ => false
  end.

Definition final (o : outcome env) (x : string) : option pyval :=
  match o with
  | Done ρ => ρ !! x
  | Failed _ => None
  end.

(** A call of [Trial.create] names the trial after the clock and attaches it
    to the experiment that was loaded. *)
Definition trial_of_experiment (t : trace)
  (c : list (string * pyval) * response) : Prop :=
  ∃ (seconds : Z) (experiment_name now experiment : pyval),
    c.1 = [("trial_name",
            VStr ("cifar10-training-job-" +:+ pretty seconds));
           ("experiment_name", experiment_name)] ∧
    py_int now = Ret seconds ∧
    (Call (Fn "time.time") [] [], Returned now) ∈ t ∧
    (Call (Fn "Experiment.load") []
       [("experiment_name", VStr "TensorFlow-cifar10-experiment")],
     Returned experiment) ∈ t ∧
    (GetAttr experiment "experiment_name", Returned experiment_name) ∈ t.

Definition trials_of_loaded_experiment (t : trace) (o : outcome env) : Prop :=
  Forall (trial_of_experiment t) (calls "Trial.create" t) ∧
  (length (calls "Experiment.load" t) ≤ 1)%nat.

(** The [wait] argument of each call of [fit], and whether the call waits
    for the job. *)
Definition fit_flags (t : trace) : list (option pyval * option bool) :=
  (λ c : pyval * list (string * pyval) * response,
     (kwarg "wait" c.1.2, fit_waits fit_wait_default c.1.2))
    <$> method_calls "fit" t.

Definition blocking_then_not (t : trace) (o : outcome env) : Prop :=
  fit_flags t `prefix_of` [(None, Some true); (Some (VBool false), Some false)].

Definition same_but_definitions (mds1 mds2 : pyval) (e1 e2 : event) : Prop :=
  e1 = e2 ∨
  ∃ kwargs,
    e1 = Call (Fn "TensorFlow") [] (kwargs ++ [("metric_definitions", mds1)]) ∧
    e2 = Call (Fn "TensorFlow") [] (kwargs ++ [("metric_definitions", mds2)]).

Definition bound_to (mds1 mds2 : pyval) (ρ1 ρ2 : env) : Prop :=
  ρ1 !! "metric_definitions" = Some mds1 ∧
  ρ2 !! "metric_definitions" = Some mds2 ∧
  ∀ x, x ≠ "metric_definitions" → ρ1 !! x = ρ2 !! x.

(** The command the notebook shows for TensorBoard. *)
Definition tensorboard_command (region model_dir : string) : string :=
  (("AWS_REGION='" +:+ region) +:+ "' tensorboard --logdir ") +:+ model_dir.

(** The region is read from the session, the log directory from an
    estimator on which a job was submitted without waiting, and the command
    built from both is shown and bound to [link]. *)
Definition command_points_at_job (t : trace) (ρ : env) : Prop :=
  ∃ (region model_dir : string) (session estimator config shown : pyval)
    (kwargs : list (string * pyval)) (r1 r2 : response),
    [ (Call (Fn "sagemaker.Session") [] [], Returned session);
      (Call (Fn "TensorFlow") [] kwargs, Returned estimator);
      (Call (Method estimator "fit") [channels]
         [("experiment_config", config); ("wait", VBool false)], r1);
      (GetAttr session "boto_region_name", Returned (VStr region));
      (GetAttr estimator "model_dir", Returned (VStr model_dir));
      (Call (Fn "Markdown")
         [VStr ("TensorBoard command: " +:+ tensorboard_command region model_dir)]
         [], Returned shown);
      (Call (Fn "display") [shown] [], r2) ] `sublist_of` t ∧
    ρ !! "link" = Some (VStr (tensorboard_command region model_dir)).

Definition when_done (P : trace → env → Prop) (t : trace) (o : outcome env)
  : Prop :=
  ∀ ρ, o = Done ρ → P t ρ.

Definition query_matches_jobs (t : trace) (o : outcome env) : Prop :=
  Forall (λ q : list (string * pyval) * response,
            kwarg "search_expression" q.1 = Some search_expression)
         (calls "ExperimentAnalytics" t) ∧
  Forall (λ c : trial_component, filters_accept search_expression c = true)
         (created t).

Definition metrics_url (region job_name : string) : string :=
  "https://console.aws.amazon.com/cloudwatch/home?region=" +:+ region +:+
  "#metricsV2:query=%7B/aws/sagemaker/TrainingJobs,TrainingJobName%7D%20" +:+
  job_name.

(** What a completed run of the cell read and built. *)
Definition url_built (t : trace) (ρ : env) : Prop :=
  ∃ region job_name : string,
    reads "boto_region_name" t = [Returned (VStr region)] ∧
    reads "job_name" t = [Returned (VStr job_name)] ∧
    ρ !! "link" = Some (VStr (metrics_url region job_name)).

(** ** A simulation of the SDKs *)

(** A small world in which the notebook runs to its end, used to exhibit
    runs: objects are records of attributes on a heap, the clock advances
    at each reading. *)
Module Demo.

Record state := State {
  next : N;
  clock : Q;
  heap : gmap N (gmap string pyval)
}.

Definition alloc (attrs : gmap string pyval) (σ : state) : response * state :=
  (Returned (VObj (next σ)),
   State (next σ + 1) (clock σ) (<[next σ := attrs]> (heap σ))).

Definition or_none (o : option pyval) : pyval := default VNone o.

Definition respond (σ : state) (e : event) : response * state :=
  match e with
  | Import _ | SetAttr _ _ => (Returned VNone, σ)
  | GetAttr (VObj h) attr =>
      match heap σ !! h ≫= (.!! attr) with
      | Some v => (Returned v, σ)
      | None => (Raised "AttributeError", σ)
      end
  | GetAttr _ _ => (Raised "AttributeError", σ)
  | Call (Fn f) _ kwargs =>
      if String.eqb f "time.time" then
        (Returned (VFloat (clock σ)),
         State (next σ) (clock σ + (201 # 2)) (heap σ))
      else if String.eqb f "sagemaker.Session" then
        alloc {["boto_region_name" := VStr "us-east-1"]} σ
      else if String.eqb f "get_execution_role" then
        (Returned (VStr "arn:aws:iam::123456789012:role/workshop"), σ)
      else if String.eqb f "Experiment.load" then
        alloc {["experiment_name" := or_none (kwarg "experiment_name" kwargs)]} σ
      else if String.eqb f "Trial.create" then
        alloc {["trial_name" := or_none (kwarg "trial_name" kwargs)]} σ
      else if String.eqb f "TensorFlow" then
        alloc {["model_dir" :=
                  VStr ("s3://workshop/cifar10-" +:+ pretty (next σ) +:+ "/model")]} σ
      else if String.eqb f "display" then (Returned VNone, σ)
      else alloc ∅ σ
  | Call (Method (VObj h) meth) _ _ =>
      if String.eqb meth "fit" then
        let job := next σ in
        (Returned VNone,
         State (job + 1) (clock σ)
           (<[job := {["job_name" := VStr ("cifar10-" +:+ pretty job)]}]>
              (alter (<["latest_training_job" := VObj job]>) h (heap σ))))
      else if String.eqb meth "upload_data" then
        (Returned (VStr "s3://workshop/data/DEMO-cifar10"), σ)
      else alloc ∅ σ
  | Call (Method _ _) _ _ => (Raised "AttributeError", σ)
  end.

Definition sdk : world := World state respond.

Definition start : state := State 1 (3400000001 # 2) ∅.

(** The configuration of the estimator shown in the introduction, without
    its metric definitions. *)
Definition config (ρ : env) : string + list (string * pyval) :=
  match ρ !! "role" with
  | None => inl "NameError"
  | Some role =>
      inr [("base_job_name", VStr (PyStr.literal "cifar10"));
           ("entry_point", VStr (PyStr.literal "cifar10_keras_sm.py"));
           ("source_dir", VStr (PyStr.literal "training_script"));
           ("role", role);
           ("framework_version", VStr (PyStr.literal "1.12.0"));
           ("py_version", VStr (PyStr.literal "py3"));
           ("hyperparameters", dict_literal [("epochs", VInt 20)]);
           ("train_instance_count", VInt 1);
           ("train_instance_type", VStr (PyStr.literal "ml.p3.2xlarge"))]
  end.

Definition the_run : trace * outcome env := run sdk start (notebook config).

(** A component recorded by an earlier job of the same experiment. *)
Definition earlier_component : trial_component :=
  <["DisplayName" := VStr "Training"]>
    (<["TrialName" := VStr "cifar10-training-job-1600000000"]>
       (<["ExperimentName" := VStr "TensorFlow-cifar10-experiment"]> ∅)).

(** Metric definitions with defects: a pattern that does not parse, and one
    with two capturing groups. *)
Definition defective_definitions : pyval :=
  VList [
    dict_literal [("Name", VStr "train:loss");
                  ("Regex", VStr "loss: ([0-9")];
    dict_literal [("Name", VStr "train:accuracy");
                  ("Regex", VStr "(loss): [0-9\.]+ - acc: ([0-9\.]+)")]
  ].

Definition line : string :=
  epoch_line "50000/50000 [==============================] - 15s 300us/step - "
    "1.2345" "0.5678" "1.1111" "0.6000" "".

(** A world that gives prepared answers in order. *)
Definition scripted : world :=
  World (list response)
    (λ σ _, match σ with
            | r :: σ' => (r, σ')
            | [] => (Raised "EOFError", [])
            end).

(** Answers to the interactions of the cell that builds the metrics URL,
    and two kernels in which it can run. *)
Definition answers : list response :=
  [Returned VNone; Returned (VStr "us-east-1"); Returned (VObj 7);
   Returned (VStr "cifar10-2019-11-25-10-00-00-000"); Returned (VObj 8);
   Returned VNone; Returned (VObj 9); Returned VNone].

Definition kernel_a : env :=
  <["estimator" := VObj 2]> (<["sagemaker_session" := VObj 1]> ∅).

Definition kernel_b : env :=
  <["estimator" := VObj 5]> (<["sagemaker_session" := VObj 4]> ∅).

End Demo.

(** ** Further statements *)

(** *** Log lines and numerals *)

(** A line that reports an error value as the example patterns expect it:
    [key], the value, a semicolon. *)
Definition error_line (pre key value post : string) : string :=
  pre +:+ key +:+ value +:+ ";" +:+ post.

(** The text has neither a semicolon nor a line break. *)
Definition plain_value (s : string) : bool :=
  forallb (fun c => negb (Ascii.eqb c ";") && negb (Ascii.eqb c "010"))
          (list_ascii_of_string s).

(** The text does not contain the character. *)
Definition lacks (a : ascii) (s : string) : bool :=
  forallb (fun c => negb (Ascii.eqb c a)) (list_ascii_of_string s).

(** A line that reports the validation metrics only. *)
Definition validation_line (pre val_loss val_acc post : string) : string :=
  pre +:+ "val_loss: " +:+ val_loss +:+ " - val_acc: " +:+ val_acc +:+ post.

(** A non-empty text of digits and points. *)
Definition is_numeral (s : string) : bool :=
  match list_ascii_of_string s with
  | [] => false
  | cs => forallb (Re.in_class false Re.number_set) cs
  end.

(** What a pattern matches, without the order in which the matcher tries
    the alternatives: [matches r t caps caps'] when [r] matches the text
    [t] and the groups that took part turn [caps] into [caps']. *)
Inductive matches : Re.regex → list ascii → Re.captures → Re.captures → Prop :=
| matches_eps c : matches Re.Eps [] c c
| matches_chr a c : matches (Re.Chr a) [a] c c
| matches_any a c : Ascii.eqb a "010" = false → matches Re.AnyChar [a] c c
| matches_class negated items a c :
    Re.in_class negated items a = true → matches (Re.Class negated items) [a] c c
| matches_seq r1 r2 t1 t2 c c1 c2 :
    matches r1 t1 c c1 → matches r2 t2 c1 c2 →
    matches (Re.Seq r1 r2) (t1 ++ t2) c c2
| matches_alt_l r1 r2 t c c1 : matches r1 t c c1 → matches (Re.Alt r1 r2) t c c1
| matches_alt_r r1 r2 t c c1 : matches r2 t c c1 → matches (Re.Alt r1 r2) t c c1
| matches_star_nil greedy r c : matches (Re.Star greedy r) [] c c
| matches_star_cons greedy r t1 t2 c c1 c2 :
    matches r t1 c c1 → matches (Re.Star greedy r) t2 c1 c2 →
    matches (Re.Star greedy r) (t1 ++ t2) c c2
| matches_plus greedy r t1 t2 c c1 c2 :
    matches r t1 c c1 → matches (Re.Star greedy r) t2 c1 c2 →
    matches (Re.Plus greedy r) (t1 ++ t2) c c2
| matches_opt_none greedy r c : matches (Re.Opt greedy r) [] c c
| matches_opt_some greedy r t c c1 :
    matches r t c c1 → matches (Re.Opt greedy r) t c c1
| matches_group i r t c c1 :
    matches r t c c1 → matches (Re.Group i r) t c (<[i := t]> c1)
| matches_noncapt r t c c1 : matches r t c c1 → matches (Re.NonCapt r) t c c1.

(** *** Failures and completion *)

(** The exception that ended a run was the answer to its last interaction. *)
Definition raised_outside (t : trace) (x : string) : Prop :=
  ∃ e, last t = Some (e, Raised x).

(** Where the exception of a failed run comes from: the code outside the
    notebook, an operation of the notebook on a value of the wrong kind, or
    the estimator configuration. *)
Definition failure_explained (cfg : env → string + list (string * pyval))
  (t : trace) (o : outcome env) : Prop :=
  ∀ x, o = Failed x →
    raised_outside t x ∨ x ∈ ["AttributeError"; "TypeError"] ∨ ∃ ρ, cfg ρ = inl x.


(** A world in which every interaction returns [None]. *)
Definition mute : world := World unit (λ σ _, (Returned VNone, σ)).

Definition is_obj (v : pyval) : bool :=
  match v with VObj _ => true | _ => false end.

Definition is_str (v : pyval) : bool :=
  match v with VStr _ => true | _ => false end.

Definition is_number (v : pyval) : bool :=
  match v with VFloat _ | VInt _ | VBool _ => true | _ => false end.

(** The kind of value the cells need from an interaction: an object where
    they go on to read an attribute or call a method of the answer, a number
    from the clock, a string where the answer is joined to a string. *)
Definition expected (e : event) (v : pyval) : bool :=
  match e with
  | Call (Fn f) _ _ =>
      if existsb (String.eqb f)
           ["sagemaker.Session"; "Experiment.load"; "Trial.create";
            "TensorFlow"; "ExperimentAnalytics"]
      then is_obj v
      else if String.eqb f "time.time" then is_number v
      else true
  | GetAttr _ attr =>
      if String.eqb attr "latest_training_job" then is_obj v
      else if existsb (String.eqb attr) ["boto_region_name"; "job_name"; "model_dir"]
      then is_str v
      else true
  | _ => true
  end.

Definition well_answered (er : event * response) : bool :=
  match er.2 with
  | Returned v => expected er.1 v
  | Raised _ => false
  end.

(** The names bound by the cells before the first estimator cell. *)
Definition names_before_estimator : list string :=
  ["metric_definitions"; "sagemaker_session"; "role"; "cifar10_experiment";
   "trial_name"; "trial"; "dataset_location"].

(** The configuration written by the reader evaluates, and leaves
    [metric_definitions] to the notebook, wherever the names of the earlier
    cells are bound. *)
Definition config_usable (cfg : env → string + list (string * pyval)) : Prop :=
  ∀ ρ, Forall (λ x, is_Some (ρ !! x)) names_before_estimator →
       ∃ kwargs, cfg ρ = inr kwargs ∧ kwarg "metric_definitions" kwargs = None.

Definition completes_if_answered (t : trace) (o : outcome env) : Prop :=
  Forall (λ er, well_answered er = true) t → completed o = true.

(** *** Imports *)

(** The import statement that provides each function or class the cells
    call.  [display] is provided by the IPython kernel. *)
Definition provided_by : list (string * string) :=
  [("sagemaker.Session", "sagemaker");
   ("get_execution_role", "sagemaker.get_execution_role");
   ("Experiment.load", "smexperiments.experiment.Experiment");
   ("Trial.create", "smexperiments.trial.Trial");
   ("time.time", "time");
   ("TensorFlow", "sagemaker.tensorflow.TensorFlow");
   ("Markdown", "IPython.core.display.Markdown");
   ("ExperimentAnalytics", "sagemaker.analytics.ExperimentAnalytics")].

Fixpoint provider (f : string) (table : list (string * string))
  : option string :=
  match table with
  | [] => None
  | (g, module) :: table =>
      if String.eqb g f then Some module else provider f table
  end.

Definition imported (module : string) (seen : list string) : bool :=
  existsb (String.eqb module) seen.

(** Every function called was imported by an interaction that succeeded
    earlier in the trace ([seen] holds the imports so far), and the option
    of pandas is set after pandas was imported. *)
Fixpoint imports_first (seen : list string) (t : trace) : bool :=
  match t with
  | [] => true
  | (Import module, Returned _) :: t' => imports_first (module :: seen) t'
  | (Call (Fn f) _ _, _) :: t' =>
      (String.eqb f "display" ||
       match provider f provided_by with
       | Some module => imported module seen
       | None => false
       end) && imports_first seen t'
  | (SetAttr _ _, _) :: t' => imported "pandas" seen && imports_first seen t'
  | _ :: t' => imports_first seen t'
  end.

(** *** Data flow between the cells *)

(** The experiment configuration the notebook gives for a job. *)
Definition config_of (experiment_name trial_name : pyval) : pyval :=
  dict_literal [("ExperimentName", experiment_name);
                ("TrialName", trial_name);
                ("TrialComponentDisplayName", VStr "Training")].

(** The component recorded for a job of the trial [trial_name]. *)
Definition training_component (experiment_name trial_name : pyval)
  : trial_component :=
  <["DisplayName" := VStr "Training"]>
    (<["TrialName" := trial_name]> (<["ExperimentName" := experiment_name]> ∅)).

(** Each of the two jobs is submitted in the trial created just before it:
    the configuration of a job names the experiment by the attribute read
    from the loaded experiment and the trial by the attribute read from the
    trial object that the preceding [Trial.create] returned. *)
Definition jobs_in_own_trials (t : trace) (ρ : env) : Prop :=
  ∃ (experiment trial1 trial2 e1 e2 n1 n2 est1 est2 done1 done2 : pyval)
    (kw1 kw2 : list (string * pyval)),
    [ (Call (Fn "Experiment.load") []
         [("experiment_name", VStr "TensorFlow-cifar10-experiment")],
       Returned experiment);
      (Call (Fn "Trial.create") [] kw1, Returned trial1);
      (GetAttr experiment "experiment_name", Returned e1);
      (GetAttr trial1 "trial_name", Returned n1);
      (Call (Method est1 "fit") [channels]
         [("experiment_config", config_of e1 n1)], Returned done1);
      (Call (Fn "Trial.create") [] kw2, Returned trial2);
      (GetAttr experiment "experiment_name", Returned e2);
      (GetAttr trial2 "trial_name", Returned n2);
      (Call (Method est2 "fit") [channels]
         [("experiment_config", config_of e2 n2); ("wait", VBool false)],
       Returned done2) ] `sublist_of` t ∧
    created t = [training_component e1 n1; training_component e2 n2] ∧
    ρ !! "trial" = Some trial2.

(** The one session object is the receiver of the upload, the source of the
    region of both links and the session of the analytics; what is displayed
    is what the upload and the query returned. *)
Definition session_shared (t : trace) (ρ : env) : Prop :=
  ∃ (session location region1 region2 experiment en analytics table : pyval)
    (r1 r2 : response),
    [ (Call (Fn "sagemaker.Session") [] [], Returned session);
      (Call (Fn "Experiment.load") []
         [("experiment_name", VStr "TensorFlow-cifar10-experiment")],
       Returned experiment);
      (Call (Method session "upload_data") []
         [("path", VStr "data"); ("key_prefix", VStr "data/DEMO-cifar10")],
       Returned location);
      (Call (Fn "display") [location] [], r1);
      (GetAttr session "boto_region_name", Returned region1);
      (GetAttr session "boto_region_name", Returned region2);
      (GetAttr experiment "experiment_name", Returned en);
      (Call (Fn "ExperimentAnalytics") []
         [("sagemaker_session", session); ("experiment_name", en);
          ("search_expression", search_expression)], Returned analytics);
      (Call (Method analytics "dataframe") [] [("force_refresh", VBool true)],
       Returned table);
      (Call (Fn "display") [table] [], r2) ] `sublist_of` t ∧
    length (calls "sagemaker.Session" t) = 1%nat ∧
    ρ !! "sagemaker_session" = Some session ∧
    ρ !! "dataset_location" = Some location ∧
    ρ !! "trial_component_analytics" = Some analytics ∧
    ρ !! "table" = Some table.

(** The link shown for the metrics is the one of the job that the first,
    blocking, submission started, in the region read from the session. *)
Definition metrics_link_of_first_job (t : trace) (ρ : env) : Prop :=
  ∃ (region job_name text : string)
    (session estimator config done job shown note : pyval)
    (kwargs : list (string * pyval)) (r1 r2 : response),
    [ (Call (Fn "sagemaker.Session") [] [], Returned session);
      (Call (Fn "TensorFlow") [] kwargs, Returned estimator);
      (Call (Method estimator "fit") [channels] [("experiment_config", config)],
       Returned done);
      (GetAttr session "boto_region_name", Returned (VStr region));
      (GetAttr estimator "latest_training_job", Returned job);
      (GetAttr job "job_name", Returned (VStr job_name));
      (Call (Fn "Markdown") [VStr text] [], Returned shown);
      (Call (Fn "display") [shown] [], r1);
      (Call (Fn "Markdown")
         [VStr "After you choose a metric, change the period to 1 Minute (Graphed Metrics -> Period)"]
         [], Returned note);
      (Call (Fn "display") [note] [], r2) ] `sublist_of` t ∧
    text = "CloudWatch metrics: [link](" +:+ metrics_url region job_name +:+ ")".

Definition flows (t : trace) (ρ : env) : Prop :=
  jobs_in_own_trials t ρ ∧ session_shared t ρ ∧ metrics_link_of_first_job t ρ.

(** The names each cell assigns, in the order of the notebook. *)
Definition assigns (cfg : env → string + list (string * pyval))
  : list ((env → prog env) * list string) :=
  [(cell_03, ["metric_definitions"]);
   (cell_05, ["sagemaker_session"; "role"]);
   (cell_07, ["cifar10_experiment"]);
   (cell_08, ["trial_name"; "trial"]);
   (cell_09, ["dataset_location"]);
   (cell_10 cfg, ["estimator"]);
   (cell_12, []);
   (cell_14, ["link"]);
   (cell_17, ["trial_name"; "trial"]);
   (cell_18 cfg, ["estimator"]);
   (cell_19, []);
   (cell_21, ["link"]);
   (cell_24, ["search_expression"]);
   (cell_25, ["trial_component_analytics"; "table"])].

Definition binds_only (names : list string) (ρ : env) (t : trace)
  (o : outcome env) : Prop :=
  ∀ ρ', o = Done ρ' →
    (∀ x, x ∉ names → ρ' !! x = ρ !! x) ∧
    Forall (λ x, is_Some (ρ' !! x)) names.

(** A kernel in which the cells before the first trial have run. *)
Definition kernel_c : env :=
  <["cifar10_experiment" := VObj 2]> (<["sagemaker_session" := VObj 1]> ∅).

Definition trial_answers : list response :=
  [Returned (VFloat (3400000001 # 2));
   Returned (VStr "TensorFlow-cifar10-experiment"); Returned (VObj 3)].

(** *** Trial names, runs on the same answers, missing estimators *)

(** The two trials get the same name exactly when the two readings of the
    clock have the same integer part. *)
Definition trials_named_by_second (t : trace) (o : outcome env) : Prop :=
  ∀ (now1 now2 : pyval) (kw1 kw2 : list (string * pyval)) (r1 r2 : response),
    calls "time.time" t = [([], Returned now1); ([], Returned now2)] →
    calls "Trial.create" t = [(kw1, r1); (kw2, r2)] →
    ∃ z1 z2 : Z,
      py_int now1 = Ret z1 ∧ py_int now2 = Ret z2 ∧
      (kwarg "trial_name" kw1 = kwarg "trial_name" kw2 ↔ z1 = z2).

(** The simulated SDKs with a clock that stands still. *)
Definition frozen : world :=
  World Demo.state
    (λ σ e, let '(r, σ') := Demo.respond σ e in
            (r, Demo.State (Demo.next σ') (Demo.clock σ) (Demo.heap σ'))).

(** Two runs made the same interactions up to [E], got the same answers and
    ended alike up to [R]. *)
Definition alike {A : Type} (R : A → A → Prop) (E : event → event → Prop)
  (r1 r2 : trace * outcome A) : Prop :=
  Forall2 (λ a b : event * response, E a.1 b.1 ∧ a.2 = b.2) r1.1 r2.1 ∧
  match r1.2, r2.2 with
  | Done a, Done b => R a b
  | Failed x, Failed y => x = y
  | _, _ => False
  end.

(** A kernel in which the estimator cell was run as it is written, with
    the placeholder in place. *)
Definition kernel_d : env := <["estimator" := VEllipsis]> Demo.kernel_a.

(** * Properties *)

(** ** The metric definitions as data *)

(** C1: every record of the example list and of [metric_definitions] has
    exactly the two fields [Name] and [Regex], both strings, and every
    [Regex] is a pattern with exactly one capturing group. *)
Theorem metric_definitions_well_formed :
  metric_list example_metric_definitions ∧ metric_list metric_definitions.
Proof.
  split; eexists; (split; [reflexivity|]);
    repeat (apply Forall_cons_2;
            [eexists _, _, _; split; [reflexivity|];
             repeat split; vm_compute; reflexivity|]);
    apply Forall_nil_2.
Qed.

(** C3: the names of [metric_definitions] are the four strings of the
    notebook and no two of them are equal. *)
Theorem metric_names_unique :
  metric_names metric_definitions =
    ["train:loss"; "train:accuracy"; "validation:accuracy"; "validation:loss"] ∧
  NoDup (metric_names metric_definitions).
Proof.
  split; [reflexivity|].
  apply (bool_decide_unpack _). vm_compute. reflexivity.
Qed.

(** ** The metric patterns on log lines *)

Import Re.

Lemma list_ascii_of_string_app (a b : string) :
  list_ascii_of_string (a +:+ b) = list_ascii_of_string a ++ list_ascii_of_string b.
Proof. induction a as [|c a IH]; simpl; [done|by rewrite IH]. Qed.

Lemma star_loop_class negated items step (k : cont) (ds : list ascii) :
  (∀ s caps k', step s caps k' = m (Class negated items) s caps k') →
  ∀ fuel acc rest caps res,
    Forall (λ c, in_class negated items c = true) ds →
    stops negated items rest →
    (length ds ≤ fuel)%nat →
    k (acc ++ ds) rest caps = Some res →
    star_loop step true k fuel acc (ds ++ rest) caps = Some res.
Proof.
  intros Hstep.
  induction ds as [|c ds IH]; intros fuel acc rest caps res Hds Hrest Hfuel Hk.
  - rewrite app_nil_r in Hk.
    destruct fuel as [|fuel]; simpl; [by rewrite Hk|].
    rewrite Hstep.
    destruct rest as [|c rest]; simpl in *; [by rewrite Hk|].
    by rewrite Hrest, Hk.
  - destruct fuel as [|fuel]; [simpl in Hfuel; lia|].
    apply Forall_cons in Hds as [Hc Hds].
    simpl. rewrite Hstep. simpl. rewrite Hc.
    replace (length (ds ++ rest) <? S (length (ds ++ rest)))%nat with true
      by (symmetry; apply Nat.ltb_lt; lia).
    rewrite (IH fuel (acc ++ [c]) rest caps res); auto.
    + simpl in Hfuel. lia.
    + by rewrite <- app_assoc.
Qed.

Lemma plus_class negated items (k : cont) (ds rest : list ascii) caps res :
  ds ≠ [] →
  Forall (λ c, in_class negated items c = true) ds →
  stops negated items rest →
  k ds rest caps = Some res →
  m (Plus true (Class negated items)) (ds ++ rest) caps k = Some res.
Proof.
  intros Hne Hds Hrest Hk. destruct ds as [|c ds]; [done|].
  apply Forall_cons in Hds as [Hc Hds].
  simpl. rewrite Hc.
  apply (star_loop_class negated items); auto. rewrite length_app. lia.
Qed.

Lemma search_skip (a : ascii) (r : regex) (pre s : list ascii) :
  Forall (λ c, Ascii.eqb a c = false) pre →
  search_from (Seq (Chr a) r) (pre ++ s) = search_from (Seq (Chr a) r) s.
Proof.
  induction 1 as [|c pre Hc _ IH]; [done|].
  simpl. unfold match_here. simpl. by rewrite Hc.
Qed.

Lemma digit_in_set c : is_digit c = true → in_class false number_set c = true.
Proof.
  unfold is_digit, in_class, number_set. cbn [existsb in_item xorb].
  change (N_of_ascii "0") with 48%N. change (N_of_ascii "9") with 57%N.
  by intros ->.
Qed.

Lemma span_digits_spec cs :
  ∀ ds rest, span_digits cs = (ds, rest) →
    cs = ds ++ rest ∧ Forall (λ c, is_digit c = true) ds.
Proof.
  induction cs as [|c cs IH]; intros ds rest; simpl.
  - intros [= <- <-]. done.
  - destruct (is_digit c) eqn:Hc.
    + destruct (span_digits cs) as [ds' rest'].
      intros [= <- <-]. destruct (IH _ _ eq_refl) as [-> H].
      split; [done|]. by constructor.
    + intros [= <- <-]. done.
Qed.

Lemma decimal_in_set cs :
  decimal cs = true →
  cs ≠ [] ∧ Forall (λ c, in_class false number_set c = true) cs.
Proof.
  unfold decimal. destruct (span_digits cs) as [ds rest] eqn:H.
  apply span_digits_spec in H as [-> Hds].
  destruct ds as [|d ds]; [done|].
  assert (Forall (λ c, in_class false number_set c = true) (d :: ds)) as Hds'.
  { eapply Forall_impl; [done|]. apply digit_in_set. }
  destruct rest as [|c fp]; [by rewrite app_nil_r|].
  destruct (Ascii.eqb_spec c ".") as [->|Hne].
  - destruct fp as [|f fp]; [done|]. intros Hfp. split; [done|].
    apply Forall_app. split; [done|]. constructor; [done|].
    apply Is_true_true, forallb_True in Hfp. eapply Forall_impl; [done|].
    intros x Hx. apply digit_in_set. by apply Is_true_true.
  - intros Hf. exfalso. revert Hf.
    destruct c as [[] [] [] [] [] [] [] []]; try done.
Qed.

Lemma m_lit (cs : list ascii) (r : regex) :
  ∀ s caps (k : cont),
    m (lit cs r) (cs ++ s) caps k =
    m r s caps (λ m2 s2 caps2, k (cs ++ m2) s2 caps2).
Proof.
  induction cs as [|c cs IH]; intros s caps k; [done|].
  change (lit (c :: cs) r) with (Seq (Chr c) (lit cs r)).
  cbn [m app]. rewrite Ascii.eqb_refl. by rewrite IH.
Qed.

Lemma stops_app (l s : list ascii) :
  l ≠ [] → stops false number_set l → stops false number_set (l ++ s).
Proof. by destruct l. Qed.

Lemma search_skip_lit (a : ascii) (l : list ascii) (r : regex)
  (pre s : list ascii) :
  Forall (λ c, Ascii.eqb a c = false) pre →
  search_from (lit (a :: l) r) (pre ++ s) = search_from (lit (a :: l) r) s.
Proof. apply search_skip. Qed.

Lemma search_here (r : regex) (s : list ascii) (caps : captures) :
  match_here r s = Some caps → search_from r s = Some caps.
Proof. intros H. destruct s; simpl; by rewrite H. Qed.

(** A pattern "text, captured number, text, number" finds the first number
    after the first occurrence of its text. *)
Lemma search_first_number (a : ascii) (l1 l2 pre n1 n2 tail : list ascii) :
  Forall (λ c, Ascii.eqb a c = false) pre →
  numeral n1 → numeral n2 →
  l2 ≠ [] → stops false number_set l2 → stops false number_set tail →
  search_from (lit (a :: l1) (Seq (Group 1 number) (lit l2 number)))
    (pre ++ (a :: l1) ++ n1 ++ l2 ++ n2 ++ tail) =
  Some (<[0%nat := (a :: l1) ++ n1 ++ l2 ++ n2]> (<[1%nat := n1]> ∅)).
Proof.
  intros Hpre [Hn1 Hs1] [Hn2 Hs2] Hl2 Hstop2 Htail.
  rewrite search_skip_lit by done.
  apply search_here. unfold match_here. rewrite m_lit.
  cbn [m]. apply plus_class; auto using stops_app.
  rewrite m_lit. by apply plus_class.
Qed.

(** A pattern "text, number, text, captured number" finds the second
    number. *)
Lemma search_second_number (a : ascii) (l1 l2 pre n1 n2 tail : list ascii) :
  Forall (λ c, Ascii.eqb a c = false) pre →
  numeral n1 → numeral n2 →
  l2 ≠ [] → stops false number_set l2 → stops false number_set tail →
  search_from (lit (a :: l1) (Seq number (lit l2 (Group 1 number))))
    (pre ++ (a :: l1) ++ n1 ++ l2 ++ n2 ++ tail) =
  Some (<[0%nat := (a :: l1) ++ n1 ++ l2 ++ n2]> (<[1%nat := n2]> ∅)).
Proof.
  intros Hpre [Hn1 Hs1] [Hn2 Hs2] Hl2 Hstop2 Htail.
  rewrite search_skip_lit by done.
  apply search_here. unfold match_here. rewrite m_lit.
  cbn [m]. apply plus_class; auto using stops_app.
  rewrite m_lit. cbn [m]. by apply plus_class.
Qed.

Lemma is_decimal_numeral (n : string) :
  is_decimal n = true → numeral (list_ascii_of_string n).
Proof. apply decimal_in_set. Qed.

Lemma numeral_free_of (a : ascii) (n : list ascii) :
  in_class false number_set a = false →
  numeral n → Forall (λ c, Ascii.eqb a c = false) n.
Proof.
  intros Ha [_ Hn]. eapply Forall_impl; [done|]. intros c Hc.
  destruct (Ascii.eqb_spec a c) as [<-|]; [|done].
  cbv beta in Hc. by rewrite Ha in Hc.
Qed.

Lemma free_of_spec (a b : ascii) (s : string) :
  free_of a b s = true →
  Forall (λ c, Ascii.eqb a c = false) (list_ascii_of_string s) ∧
  Forall (λ c, Ascii.eqb b c = false) (list_ascii_of_string s).
Proof.
  unfold free_of. intros H. apply Is_true_true, forallb_True in H.
  split; (eapply Forall_impl; [done|]); intros c Hc; simpl in Hc;
    apply Is_true_true, andb_true_iff in Hc as [Ha Hb];
    rewrite Ascii.eqb_sym; by apply negb_true_iff.
Qed.

Lemma ends_number_stops (s : string) :
  ends_number s = true → stops false number_set (list_ascii_of_string s).
Proof.
  destruct s as [|c s]; [done|].
  cbn [ends_number list_ascii_of_string stops].
  unfold in_class, number_set, is_digit. cbn [existsb in_item xorb].
  change (N_of_ascii "0") with 48%N. change (N_of_ascii "9") with 57%N.
  intros [H1 H2]%andb_true_iff.
  apply negb_true_iff in H1, H2. by rewrite H1, H2.
Qed.

(** The result of [search] when the pattern has one group and the match
    captured [n]. *)
Lemma search_result (p line : string) (r : regex) (whole : list ascii)
  (n : string) :
  parse p = Some r → ngroups r = 1%nat →
  search_from r (list_ascii_of_string line) =
    Some (<[0%nat := whole]> (<[1%nat := list_ascii_of_string n]> ∅)) →
  search p line = Some [Some n].
Proof.
  intros Hp Hg Hs. unfold search, groups. rewrite Hp. simpl. rewrite Hs, Hg.
  simpl. rewrite lookup_insert_ne by done. rewrite lookup_insert_eq. simpl.
  by rewrite string_of_list_ascii_of_string.
Qed.

Lemma epoch_line_chars (pre loss acc val_loss val_acc post : string) :
  list_ascii_of_string (epoch_line pre loss acc val_loss val_acc post) =
  list_ascii_of_string pre ++ list_ascii_of_string "loss: " ++
  list_ascii_of_string loss ++ list_ascii_of_string " - acc: " ++
  list_ascii_of_string acc ++ list_ascii_of_string " - val_loss: " ++
  list_ascii_of_string val_loss ++ list_ascii_of_string " - val_acc: " ++
  list_ascii_of_string val_acc ++ list_ascii_of_string post.
Proof. unfold epoch_line. by rewrite !list_ascii_of_string_app. Qed.

Lemma parse_train_loss :
  parse "loss: ([0-9\.]+) - acc: [0-9\.]+" =
  Some (lit (list_ascii_of_string "loss: ")
          (Seq (Group 1 number) (lit (list_ascii_of_string " - acc: ") number))).
Proof. vm_compute. reflexivity. Qed.

Lemma parse_train_accuracy :
  parse "loss: [0-9\.]+ - acc: ([0-9\.]+)" =
  Some (lit (list_ascii_of_string "loss: ")
          (Seq number (lit (list_ascii_of_string " - acc: ") (Group 1 number)))).
Proof. vm_compute. reflexivity. Qed.

Lemma parse_validation_accuracy :
  parse "val_loss: [0-9\.]+ - val_acc: ([0-9\.]+)" =
  Some (lit (list_ascii_of_string "val_loss: ")
          (Seq number
             (lit (list_ascii_of_string " - val_acc: ") (Group 1 number)))).
Proof. vm_compute. reflexivity. Qed.

Lemma parse_validation_loss :
  parse "val_loss: ([0-9\.]+) - val_acc: [0-9\.]+" =
  Some (lit (list_ascii_of_string "val_loss: ")
          (Seq (Group 1 number)
             (lit (list_ascii_of_string " - val_acc: ") number))).
Proof. vm_compute. reflexivity. Qed.

(** The line, split before its validation metrics. *)
Lemma epoch_line_validation (pre loss acc val_loss val_acc post : string) :
  list_ascii_of_string (epoch_line pre loss acc val_loss val_acc post) =
  (list_ascii_of_string pre ++ list_ascii_of_string "loss: " ++
   list_ascii_of_string loss ++ list_ascii_of_string " - acc: " ++
   list_ascii_of_string acc ++ list_ascii_of_string " - ") ++
  list_ascii_of_string "val_loss: " ++
  list_ascii_of_string val_loss ++ list_ascii_of_string " - val_acc: " ++
  list_ascii_of_string val_acc ++ list_ascii_of_string post ++ [].
Proof.
  rewrite epoch_line_chars, app_nil_r.
  change (list_ascii_of_string " - val_loss: ") with
    (list_ascii_of_string " - " ++ list_ascii_of_string "val_loss: ").
  by rewrite <- !app_assoc.
Qed.

(** C2: on a line that reports the four metrics as decimal numbers, each of
    the four patterns of [metric_definitions] matches with exactly one
    captured group, whose text is the number of its metric. *)
Theorem metric_patterns_capture_numbers
  (pre loss acc val_loss val_acc post : string) :
  is_decimal loss = true → is_decimal acc = true →
  is_decimal val_loss = true → is_decimal val_acc = true →
  free_of "l" "v" pre = true → ends_number post = true →
  Forall2
    (λ p n,
       search p (epoch_line pre loss acc val_loss val_acc post) = Some [Some n] ∧
       is_decimal n = true)
    (metric_regexes metric_definitions) [loss; acc; val_acc; val_loss].
Proof.
  intros H1 H2 H3 H4 Hpre Hpost.
  pose proof (is_decimal_numeral _ H1) as N1.
  pose proof (is_decimal_numeral _ H2) as N2.
  pose proof (is_decimal_numeral _ H3) as N3.
  pose proof (is_decimal_numeral _ H4) as N4.
  apply free_of_spec in Hpre as [Hl Hv].
  apply ends_number_stops in Hpost.
  change (metric_regexes metric_definitions) with
    ["loss: ([0-9\.]+) - acc: [0-9\.]+"; "loss: [0-9\.]+ - acc: ([0-9\.]+)";
     "val_loss: [0-9\.]+ - val_acc: ([0-9\.]+)";
     "val_loss: ([0-9\.]+) - val_acc: [0-9\.]+"].
  assert (Forall (λ c, Ascii.eqb "v" c = false)
            (list_ascii_of_string pre ++ list_ascii_of_string "loss: " ++
             list_ascii_of_string loss ++ list_ascii_of_string " - acc: " ++
             list_ascii_of_string acc ++ list_ascii_of_string " - ")) as Hv'.
  { repeat (apply Forall_app; split); auto using numeral_free_of.
    all: repeat constructor. }
  repeat (apply Forall2_cons; split; [split; [|done]|]); [| | | |constructor].
  - eapply search_result; [apply parse_train_loss|reflexivity|].
    rewrite epoch_line_chars.
    apply (search_first_number "l" (list_ascii_of_string "oss: ")
             (list_ascii_of_string " - acc: ")); auto.
    all: done.
  - eapply search_result; [apply parse_train_accuracy|reflexivity|].
    rewrite epoch_line_chars.
    apply (search_second_number "l" (list_ascii_of_string "oss: ")
             (list_ascii_of_string " - acc: ")); auto.
    all: done.
  - eapply search_result; [apply parse_validation_accuracy|reflexivity|].
    rewrite epoch_line_validation.
    apply (search_second_number "v" (list_ascii_of_string "al_loss: ")
             (list_ascii_of_string " - val_acc: ")); auto.
    all: try done. by rewrite app_nil_r.
  - eapply search_result; [apply parse_validation_loss|reflexivity|].
    rewrite epoch_line_validation.
    apply (search_first_number "v" (list_ascii_of_string "al_loss: ")
             (list_ascii_of_string " - val_acc: ")); auto.
    all: try done. by rewrite app_nil_r.
Qed.

Lemma metric_patterns_capture_numbers_witness :
  Forall2
    (λ p n, search p Demo.line = Some [Some n] ∧ is_decimal n = true)
    (metric_regexes metric_definitions) ["1.2345"; "0.5678"; "0.6000"; "1.1111"].
Proof.
  apply (metric_patterns_capture_numbers
           "50000/50000 [==============================] - 15s 300us/step - "
           "1.2345" "0.5678" "1.1111" "0.6000" ""); reflexivity.
Defined.


(** ** Runs of the notebook *)


Lemma always_run {A : Type} (p : prog A) (Q : trace -> outcome A -> Prop) :
  ∀ pre, always p pre Q →
  ∀ (w : world) (σ : wstate w),
    Q (pre ++ (run w σ p).1) (run w σ p).2.
Proof.
  induction p as [a|x|e k IH]; intros pre H w σ; simpl in *.
  - by rewrite app_nil_r.
  - by rewrite app_nil_r.
  - destruct H as [Hx Hv].
    destruct (respond w σ e) as [[v|x] σ'].
    + specialize (IH v _ (Hv v) w σ').
      destruct (run w σ' (k v)) as [t o]; simpl in *.
      by rewrite <- app_assoc in IH.
    + apply Hx.
Qed.

Lemma always_run_all {A : Type} (p : prog A) (Q : trace -> outcome A -> Prop) :
  always p [] Q →
  ∀ (w : world) (σ : wstate w), Q (run w σ p).1 (run w σ p).2.
Proof. intros H w σ. exact (always_run p Q [] H w σ). Qed.

Lemma name_insert_eq (ρ : env) (x : string) (v : pyval) :
  name (<[x := v]> ρ) x = Ret v.
Proof. unfold name. by rewrite lookup_insert_eq. Qed.

Lemma name_insert_ne (ρ : env) (x y : string) (v : pyval) :
  x ≠ y → name (<[x := v]> ρ) y = name ρ y.
Proof. intros. unfold name. by rewrite lookup_insert_ne. Qed.

Lemma name_cases (ρ : env) (x : string) :
  (∃ v, ρ !! x = Some v ∧ name ρ x = Ret v) ∨ name ρ x = Throw "NameError".
Proof. unfold name. destruct (ρ !! x); eauto. Qed.

Lemma py_int_cases (v : pyval) :
  (∃ z, py_int v = Ret z) ∨ py_int v = Throw "TypeError".
Proof. destruct v; simpl; eauto. Qed.

Lemma is_object_cases (v : pyval) :
  (∃ h, v = VObj h) ∨ is_object v = Throw "AttributeError".
Proof. destruct v; simpl; eauto. Qed.

Lemma is_object_obj (h : N) : is_object (VObj h) = Ret tt.
Proof. done. Qed.

Lemma str_add_cases (a : string) (v : pyval) :
  (∃ b, v = VStr b) ∨ str_add (VStr a) v = Throw "TypeError".
Proof. destruct v; simpl; eauto. Qed.

Lemma str_add_str (a b : string) : str_add (VStr a) (VStr b) = Ret (VStr (a +:+ b)).
Proof. done. Qed.

Lemma kwarg_app_new (key : string) (kwargs : list (string * pyval)) (v : pyval) :
  kwarg key kwargs = None → kwarg key (kwargs ++ [(key, v)]) = Some v.
Proof.
  induction kwargs as [|[k w] kwargs IH]; cbn.
  - by rewrite String.eqb_refl.
  - destruct (String.eqb k key); [done|apply IH].
Qed.

Lemma always_bind {A B : Type} (p : prog A) (f : A → prog B)
  (Q : trace → outcome B → Prop) :
  ∀ pre,
    always p pre (λ t o,
      match o with
      | Done a => always (f a) t Q
      | Failed x => Q t (Failed x)
      end) →
    always (p ≫= f) pre Q.
Proof.
  induction p as [a|x|e k IH]; intros pre H; [done..|].
  destruct H as [Hx Hv]. split; [done|]. intros v. apply IH, Hv.
Qed.

Lemma always_run_cells (cells : list (env → prog env))
  (Q : trace → outcome env → Prop) :
  ∀ ρ pre, always_cells cells ρ pre Q → always (run_cells cells ρ) pre Q.
Proof.
  induction cells as [|cell cells IH]; intros ρ pre H; [done|].
  apply always_bind. simpl in H.
  revert H. generalize (cell ρ) pre. clear ρ pre.
  induction p as [a|x|e k IHp]; intros pre H; simpl in *; [by apply IH|done|].
  destruct H as [Hx Hv]. split; [done|]. intros v. apply IHp, Hv.
Qed.

Lemma always_cells_cons cell cells ρ pre Q :
  always_cells (cell :: cells) ρ pre Q =
  always (cell ρ) pre (λ t o,
    match o with
    | Done ρ' => always_cells cells ρ' t Q
    | Failed x => Q t (Failed x)
    end).
Proof. done. Qed.

Lemma always_cells_nil ρ pre Q : always_cells [] ρ pre Q = Q pre (Done ρ).
Proof. done. Qed.

#[local] Arguments str_add !a !v /.
#[local] Arguments py_int !v /.
#[local] Arguments is_object !v /.
#[local] Arguments name : simpl never.
#[local] Arguments kwarg key !kwargs /.
#[local] Arguments always_cells : simpl never.
#[local] Arguments list_reaches_submission : simpl never.
#[local] Arguments trials_of_loaded_experiment : simpl never.
#[local] Arguments blocking_then_not : simpl never.
#[local] Arguments when_done : simpl never.
#[local] Arguments query_matches_jobs : simpl never.
#[local] Arguments component_of : simpl never.

Ltac head_prog p :=
  lazymatch p with
  | bind ?q _ => head_prog q
  | mbind _ ?q => head_prog q
  | _ => p
  end.

Ltac open_cell c ρ t Q :=
  let c' := eval unfold cell_03, cell_05, cell_07, cell_08, cell_09, cell_10,
              cell_12, cell_14, cell_17, cell_18, cell_19, cell_21, cell_24,
              cell_25 in c in
  let p := eval cbv beta in (c' ρ) in
  progress change (always p t Q).

Ltac sym_head h :=
  lazymatch h with
  | name (<[?x := ?v]> ?ρ) ?y =>
      first [ rewrite (name_insert_eq ρ y v)
            | rewrite (name_insert_ne ρ x y v) by done ]
  | name ?ρ ?y =>
      is_var ρ;
      let v := fresh "v" in let H := fresh "Hname" in let E := fresh in
      destruct (name_cases ρ y) as [[v [H E]]|E]; rewrite E; clear E
  | py_int ?v =>
      is_var v;
      let z := fresh "z" in let H := fresh "Hint" in
      destruct (py_int_cases v) as [[z H]|H]; rewrite H
  | is_object (VObj _) => progress cbn
  | is_object ?v =>
      is_var v;
      let h := fresh "h" in let H := fresh in
      destruct (is_object_cases v) as [[h ->]|H]; [|rewrite H; clear H]
  | str_add (VStr _) (VStr _) => progress cbn
  | str_add (VStr ?a) ?v =>
      is_var v;
      let b := fresh "b" in let H := fresh in
      destruct (str_add_cases a v) as [[b ->]|H]; [|rewrite H; clear H]
  | match ?c ?ρ with inl _ => _ | inr _ => _ end =>
      let kw := fresh "kw" in let H := fresh "Hcfg" in
      destruct (c ρ) as [?|kw] eqn:H
  | match kwarg ?k ?kw with Some _ => _ | None => _ end =>
      destruct (kwarg k kw) eqn:?
  | getattr _ _ => unfold getattr
  | method _ _ => unfold method
  | estimator_expr _ _ => unfold estimator_expr
  | experiment_config _ => unfold experiment_config
  | _ => progress cbn
  end.

Ltac sym_step :=
  lazymatch goal with
  | |- always_cells (_ :: _) _ _ _ => rewrite always_cells_cons
  | |- always_cells [] _ _ _ => rewrite always_cells_nil
  | |- always (?c ?ρ) ?t ?Q =>
      first [ open_cell c ρ t Q
            | let h := head_prog (c ρ) in sym_head h ]
  | |- always ?p _ _ => let h := head_prog p in sym_head h
  | |- _ ∧ _ => split
  | |- ∀ _, _ => intro
  | |- match _ with Done _ => _ | Failed _ => _ end => progress cbn
  end.

Ltac leaf :=
  repeat match goal with
         | |- _ ∧ _ => split
         | |- True => exact I
         | |- kwarg ?k (_ ++ [(?k, _)]) = Some _ => by apply kwarg_app_new
         | |- _ ∈ _ =>
             by repeat first [apply list_elem_of_here | apply list_elem_of_further]
         | |- ∀ _, _ => intro
         | H : Failed _ = Done _ |- _ => discriminate H
         | H : Done _ = Done _ |- _ => injection H as <-
         | |- <[_ := _]> _ !! _ = Some _ =>
             first [ by apply lookup_insert_eq
                   | rewrite lookup_insert_ne by done ]
         | |- _ => assumption
         end.

Section Passing.

Variable cfg : env → string + list (string * pyval).

Lemma notebook_list_reaches_submission :
  always (notebook cfg) [] list_reaches_submission.
Proof.
  apply always_run_cells. unfold later_cells.
  repeat sym_step.
  all: unfold list_reaches_submission; cbn.
  all: leaf.
Qed.

(** No later cell rebinds a name it does not assign. *)
Lemma later_cells_frame (cell : env → prog env) (ρ : env) (v : pyval) :
  cell ∈ later_cells cfg →
  ρ !! "metric_definitions" = Some v →
  always (cell ρ) []
    (λ _ o, ∀ ρ', o = Done ρ' → ρ' !! "metric_definitions" = Some v).
Proof.
  intros Hcell Hρ. unfold later_cells in Hcell.
  repeat (apply elem_of_cons in Hcell as [->|Hcell]);
    [..|by apply elem_of_nil in Hcell].
  all: repeat sym_step.
  all: leaf.
Qed.

End Passing.


Lemma demo_completes : completed Demo.the_run.2 = true.
Proof. vm_compute. reflexivity. Qed.


Ltac find_event :=
  by repeat first [apply list_elem_of_here | apply list_elem_of_further].

Lemma notebook_trials cfg :
  always (notebook cfg) [] trials_of_loaded_experiment.
Proof.
  apply always_run_cells. unfold later_cells.
  repeat sym_step.
  all: unfold trials_of_loaded_experiment; cbn.
  all: split; [|lia].
  all: repeat (apply Forall_cons_2;
               [eexists _, _, _, _;
                split; [reflexivity|];
                split; [eassumption|];
                repeat split; find_event|]).
  all: apply Forall_nil_2.
Qed.


(** In the simulated world both trials are created. *)
Example demo_creates_two_trials :
  (λ c : list (string * pyval) * response, kwarg "trial_name" c.1)
    <$> calls "Trial.create" Demo.the_run.1 =
  [Some (VStr "cifar10-training-job-1700000000");
   Some (VStr "cifar10-training-job-1700000101")].
Proof. vm_compute. reflexivity. Qed.

Ltac sim_head h :=
  lazymatch h with
  | name (<[?x := ?v]> ?ρ) ?y =>
      first [ rewrite !(name_insert_eq _ y)
            | rewrite !(name_insert_ne _ x y) by done ]
  | name ?ρ ?y =>
      is_var ρ;
      let v := fresh "v" in let H := fresh "Hname" in let E := fresh in
      destruct (name_cases ρ y) as [[v [H E]]|E]; rewrite !E; clear E
  | py_int ?v =>
      is_var v;
      let z := fresh "z" in let H := fresh "Hint" in
      destruct (py_int_cases v) as [[z H]|H]; rewrite !H
  | is_object (VObj _) => progress cbn
  | is_object ?v =>
      is_var v;
      let h := fresh "h" in let H := fresh in
      destruct (is_object_cases v) as [[h ->]|H]; [|rewrite !H; clear H]
  | str_add (VStr _) (VStr _) => progress cbn
  | str_add (VStr ?a) ?v =>
      is_var v;
      let b := fresh "b" in let H := fresh in
      destruct (str_add_cases a v) as [[b ->]|H]; [|rewrite !H; clear H]
  | match kwarg ?k ?kw with Some _ => _ | None => _ end =>
      destruct (kwarg k kw) eqn:?
  | getattr _ _ => unfold getattr
  | method _ _ => unfold method
  | estimator_expr _ _ => unfold estimator_expr
  | experiment_config _ => unfold experiment_config
  | _ => progress cbn
  end.

Ltac sim_step :=
  lazymatch goal with
  | |- sim _ _ (Vis _ _) _ => apply sim_vis; [|intro]
  | |- sim _ _ (Throw _) _ => apply sim_throw
  | |- sim _ _ (Ret _) _ => apply sim_ret
  | |- sim _ _ ?p _ => let h := head_prog p in sim_head h
  end.

Lemma fit_cells_sim (ρ : env) : sim eq adds_wait_false (cell_12 ρ) (cell_19 ρ).
Proof.
  unfold cell_12, cell_19.
  repeat sim_step.
  all: try reflexivity.
  all: cbn; auto.
Qed.

Lemma notebook_fit_flags cfg : always (notebook cfg) [] blocking_then_not.
Proof.
  apply always_run_cells. unfold later_cells.
  repeat sym_step.
  all: unfold blocking_then_not, fit_flags; cbn.
  all: eexists; reflexivity.
Qed.


Example demo_fit_flags :
  fit_flags Demo.the_run.1 =
  [(None, Some true); (Some (VBool false), Some false)].
Proof. vm_compute. reflexivity. Qed.

Lemma sim_bind {A B : Type} (R : A → A → Prop) (R' : B → B → Prop)
  (E : event → event → Prop) (p q : prog A) (f g : A → prog B) :
  sim R E p q →
  (∀ a b, R a b → sim R' E (f a) (g b)) →
  sim R' E (p ≫= f) (q ≫= g).
Proof.
  intros Hpq Hfg. induction Hpq as [a b Hab|x|e1 e2 k1 k2 He _ IH].
  - by apply Hfg.
  - apply sim_throw.
  - apply sim_vis; [done|]. intros v. apply IH.
Qed.

Lemma sim_run_cells (R : env → env → Prop) (E : event → event → Prop)
  (cells : list (env → prog env)) :
  (∀ cell ρ1 ρ2, cell ∈ cells → R ρ1 ρ2 → sim R E (cell ρ1) (cell ρ2)) →
  ∀ ρ1 ρ2, R ρ1 ρ2 → sim R E (run_cells cells ρ1) (run_cells cells ρ2).
Proof.
  induction cells as [|cell cells IH]; intros Hcells ρ1 ρ2 Hρ.
  - by apply sim_ret.
  - apply sim_bind with R.
    + apply Hcells; [apply list_elem_of_here|done].
    + apply IH. intros c ρ1' ρ2' Hc. apply Hcells. by apply list_elem_of_further.
Qed.

Section Defects.

Variable cfg : env → string + list (string * pyval).
Variables mds1 mds2 : pyval.
Hypothesis cfg_frame :
  ∀ ρ v, cfg (<["metric_definitions" := v]> ρ) = cfg ρ.

Lemma cfg_bound_to (ρ1 ρ2 : env) : bound_to mds1 mds2 ρ1 ρ2 → cfg ρ1 = cfg ρ2.
Proof.
  intros (H1 & H2 & H).
  rewrite <- (insert_id ρ1 _ _ H1), <- (insert_id ρ2 _ _ H2).
  rewrite <- (insert_delete_eq ρ1), <- (insert_delete_eq ρ2), !cfg_frame.
  f_equal. apply map_eq. intros x.
  destruct (decide (x = "metric_definitions")) as [->|Hx].
  - by rewrite !lookup_delete_eq.
  - rewrite !lookup_delete_ne by done. by apply H.
Qed.

Lemma bound_to_insert (ρ1 ρ2 : env) (x : string) (v : pyval) :
  x ≠ "metric_definitions" →
  bound_to mds1 mds2 ρ1 ρ2 →
  bound_to mds1 mds2 (<[x := v]> ρ1) (<[x := v]> ρ2).
Proof.
  intros Hx (H1 & H2 & H). repeat split.
  - by rewrite lookup_insert_ne.
  - by rewrite lookup_insert_ne.
  - intros y Hy. destruct (decide (x = y)) as [->|Hxy].
    + by rewrite !lookup_insert_eq.
    + rewrite !lookup_insert_ne by done. by apply H.
Qed.

Lemma name_bound_to (ρ1 ρ2 : env) (x : string) :
  x ≠ "metric_definitions" →
  bound_to mds1 mds2 ρ1 ρ2 → name ρ2 x = name ρ1 x.
Proof. intros Hx (_ & _ & H). unfold name. by rewrite (H x Hx). Qed.

Ltac related_step :=
  match goal with
  | H : bound_to _ _ ?ρ1 ?ρ2 |- context [name ?ρ2 ?x] =>
      rewrite (name_bound_to ρ1 ρ2 x) by done
  | H : bound_to _ _ ?ρ1 ?ρ2 |- context [cfg ?ρ2] =>
      rewrite <- (cfg_bound_to ρ1 ρ2 H)
  | |- context [match cfg ?ρ with inl _ => _ | inr _ => _ end] =>
      destruct (cfg ρ)
  | H : bound_to _ _ ?ρ1 ?ρ2
    |- context [name ?ρ1 "metric_definitions"] =>
      let H1 := fresh in let H2 := fresh in
      pose proof H as (H1 & H2 & _); unfold name at 1 2; rewrite H1, H2
  end.

Lemma later_cells_sim (cell : env → prog env) (ρ1 ρ2 : env) :
  cell ∈ later_cells cfg →
  bound_to mds1 mds2 ρ1 ρ2 →
  sim (bound_to mds1 mds2) (same_but_definitions mds1 mds2)
    (cell ρ1) (cell ρ2).
Proof.
  intros Hcell Hρ. unfold later_cells in Hcell.
  repeat (apply elem_of_cons in Hcell as [->|Hcell]);
    [..|by apply elem_of_nil in Hcell].
  all: unfold cell_05, cell_07, cell_08, cell_09, cell_10, cell_12, cell_14,
         cell_17, cell_18, cell_19, cell_21, cell_24, cell_25.
  all: repeat first [related_step | sim_step].
  all: try by left.
  all: try by repeat apply bound_to_insert.
  all: right; by eexists.
Qed.

End Defects.


Lemma demo_config_frame (ρ : env) (v : pyval) :
  Demo.config (<["metric_definitions" := v]> ρ) = Demo.config ρ.
Proof. unfold Demo.config. by rewrite lookup_insert_ne. Qed.


Ltac find_sublist :=
  first [ apply sublist_nil_l
        | apply sublist_skip; find_sublist
        | apply sublist_cons; find_sublist ].

Lemma notebook_command cfg :
  always (notebook cfg) [] (when_done command_points_at_job).
Proof.
  apply always_run_cells. unfold later_cells.
  repeat sym_step.
  all: intros ρ' Hρ'; try discriminate Hρ'.
  injection Hρ' as <-.
  eexists _, _, _, _, _, _, _, _, _. split.
  - unfold tensorboard_command. find_sublist.
  - unfold tensorboard_command. leaf.
Qed.



Example demo_command :
  final Demo.the_run.2 "link" =
  Some (VStr "AWS_REGION='us-east-1' tensorboard --logdir s3://workshop/cifar10-9/model").
Proof. vm_compute. reflexivity. Qed.

(** ** The analytics query *)

Lemma component_of_config (e t n : pyval) :
  component_of
    (dict_literal [("ExperimentName", e); ("TrialName", t);
                   ("TrialComponentDisplayName", n)]) =
  Some (<["DisplayName" := n]> (<["TrialName" := t]>
         (<["ExperimentName" := e]> ∅))).
Proof. vm_compute. reflexivity. Qed.

Lemma str_eq_spec (v : pyval) (s : string) : str_eq v (VStr s) = true ↔ v = VStr s.
Proof.
  destruct v; simpl; try (split; [done|congruence]).
  rewrite String.eqb_eq. split; congruence.
Qed.

Lemma search_expression_accepts (c : trial_component) :
  filters_accept search_expression c = true ↔
  c !! "DisplayName" = Some (VStr "Training").
Proof.
  change (filters_accept search_expression c) with
    (match c !! "DisplayName" with
     | Some v => str_eq v (VStr "Training")
     | None => false
     end && true).
  rewrite andb_true_r. destruct (c !! "DisplayName") as [v|]; [|done].
  rewrite str_eq_spec. split; congruence.
Qed.

Lemma notebook_query cfg : always (notebook cfg) [] query_matches_jobs.
Proof.
  apply always_run_cells. unfold later_cells.
  repeat sym_step.
  all: unfold query_matches_jobs, created; cbn.
  all: rewrite ?component_of_config; cbn.
  all: split; repeat (apply Forall_cons_2; [|]); try apply Forall_nil_2.
  all: try reflexivity.
  all: by apply search_expression_accepts.
Qed.



Example demo_created_two_components : length (created Demo.the_run.1) = 2%nat.
Proof. vm_compute. reflexivity. Qed.

(** ** The metrics URL *)

Lemma append_assoc (a b c : string) : (a +:+ b) +:+ c = a +:+ (b +:+ c).
Proof.
  induction a as [|x a IH]; [done|].
  change (String x ((a +:+ b) +:+ c) = String x (a +:+ (b +:+ c))).
  by rewrite IH.
Qed.

Lemma cell_14_url (ρ : env) :
  always (cell_14 ρ) [] (when_done url_built).
Proof.
  repeat sym_step.
  all: intros ρ' Hρ'; try discriminate Hρ'.
  injection Hρ' as <-. eexists _, _. repeat split.
  rewrite lookup_insert_eq. unfold metrics_url. by rewrite !append_assoc.
Qed.

(** C10: the URL bound to [link] is the fixed prefix, the region read from
    the session, the fixed query fragment and the job name read from the
    latest training job, in this order; two completed runs of the cell that
    read the same region and job name build the same URL. *)
Theorem metrics_url_deterministic :
  (∀ (w : world) (σ : wstate w) (ρ ρ' : env),
     (run w σ (cell_14 ρ)).2 = Done ρ' →
     url_built (run w σ (cell_14 ρ)).1 ρ') ∧
  (∀ (w1 w2 : world) (σ1 : wstate w1) (σ2 : wstate w2) (ρ1 ρ2 ρ1' ρ2' : env),
     (run w1 σ1 (cell_14 ρ1)).2 = Done ρ1' →
     (run w2 σ2 (cell_14 ρ2)).2 = Done ρ2' →
     reads "boto_region_name" (run w1 σ1 (cell_14 ρ1)).1 =
       reads "boto_region_name" (run w2 σ2 (cell_14 ρ2)).1 →
     reads "job_name" (run w1 σ1 (cell_14 ρ1)).1 =
       reads "job_name" (run w2 σ2 (cell_14 ρ2)).1 →
     ρ1' !! "link" = ρ2' !! "link").
Proof.
  assert (∀ (w : world) (σ : wstate w) (ρ ρ' : env),
            (run w σ (cell_14 ρ)).2 = Done ρ' →
            url_built (run w σ (cell_14 ρ)).1 ρ') as Hbuilt.
  { intros w σ ρ ρ'. exact (always_run_all _ _ (cell_14_url ρ) w σ ρ'). }
  split; [exact Hbuilt|].
  intros w1 w2 σ1 σ2 ρ1 ρ2 ρ1' ρ2' H1 H2 Hregion Hjob.
  destruct (Hbuilt _ _ _ _ H1) as (r1 & j1 & Hr1 & Hj1 & ->).
  destruct (Hbuilt _ _ _ _ H2) as (r2 & j2 & Hr2 & Hj2 & ->).
  rewrite Hr1, Hr2 in Hregion. rewrite Hj1, Hj2 in Hjob.
  congruence.
Qed.


Lemma metrics_url_deterministic_witness :
  final (run Demo.scripted Demo.answers (cell_14 Demo.kernel_a)).2 "link" =
  final (run Demo.scripted Demo.answers (cell_14 Demo.kernel_b)).2 "link".
Proof.
  pose proof (proj2 metrics_url_deterministic Demo.scripted Demo.scripted
                Demo.answers Demo.answers Demo.kernel_a Demo.kernel_b) as H.
  assert (reads "boto_region_name"
            (run Demo.scripted Demo.answers (cell_14 Demo.kernel_a)).1 =
          reads "boto_region_name"
            (run Demo.scripted Demo.answers (cell_14 Demo.kernel_b)).1) as Hr
    by (vm_compute; reflexivity).
  assert (reads "job_name"
            (run Demo.scripted Demo.answers (cell_14 Demo.kernel_a)).1 =
          reads "job_name"
            (run Demo.scripted Demo.answers (cell_14 Demo.kernel_b)).1) as Hj
    by (vm_compute; reflexivity).
  assert (completed (run Demo.scripted Demo.answers (cell_14 Demo.kernel_a)).2
          = true) as Ha by (vm_compute; reflexivity).
  assert (completed (run Demo.scripted Demo.answers (cell_14 Demo.kernel_b)).2
          = true) as Hb by (vm_compute; reflexivity).
  unfold final.
  destruct (run Demo.scripted Demo.answers (cell_14 Demo.kernel_a)).2
    as [ρa|] eqn:Ea; [|discriminate Ha].
  destruct (run Demo.scripted Demo.answers (cell_14 Demo.kernel_b)).2
    as [ρb|] eqn:Eb; [|discriminate Hb].
  exact (H ρa ρb eq_refl eq_refl Hr Hj).
Defined.

Example demo_metrics_url :
  final (run Demo.scripted Demo.answers (cell_14 Demo.kernel_a)).2 "link" =
  Some (VStr (metrics_url "us-east-1" "cifar10-2019-11-25-10-00-00-000")).
Proof. vm_compute. reflexivity. Qed.

(** * Further properties *)

(** ** The patterns on other lines *)

(** ** Lazy repetition of any character *)

Lemma star_loop_lazy_any step (k : cont) (vs : list ascii) :
  (∀ s caps k', step s caps k' = m AnyChar s caps k') →
  ∀ fuel acc rest caps res,
    Forall (λ c, Ascii.eqb c "010" = false) vs →
    (∀ d1 c d2, vs = d1 ++ c :: d2 → k (acc ++ d1) (c :: d2 ++ rest) caps = None) →
    (length vs ≤ fuel)%nat →
    k (acc ++ vs) rest caps = Some res →
    star_loop step false k fuel acc (vs ++ rest) caps = Some res.
Proof.
  intros Hstep.
  induction vs as [|c vs IH]; intros fuel acc rest caps res Hvs Hfail Hfuel Hk.
  - rewrite app_nil_r in Hk.
    destruct fuel; simpl; by rewrite Hk.
  - destruct fuel as [|fuel]; [simpl in Hfuel; lia|].
    apply Forall_cons in Hvs as [Hc Hvs].
    pose proof (Hfail [] c vs eq_refl) as Hhere. rewrite app_nil_r in Hhere.
    simpl. rewrite Hhere.
    rewrite Hstep. simpl. rewrite Hc.
    replace (length (vs ++ rest) <? S (length (vs ++ rest)))%nat with true
      by (symmetry; apply Nat.ltb_lt; lia).
    apply IH; auto.
    + intros d1 c' d2 ->. rewrite <- app_assoc. apply (Hfail (c :: d1) c' d2).
      done.
    + simpl in Hfuel. lia.
    + by rewrite <- app_assoc.
Qed.

Lemma search_lazy_value (a : ascii) (l1 pre vs post : list ascii) :
  Forall (λ c, Ascii.eqb a c = false) pre →
  Forall (λ c, Ascii.eqb c ";" = false) vs →
  Forall (λ c, Ascii.eqb c "010" = false) vs →
  search_from (lit (a :: l1) (Seq (Group 1 (Star false AnyChar)) (Chr ";")))
    (pre ++ (a :: l1) ++ vs ++ ";"%char :: post) =
  Some (<[0%nat := (a :: l1) ++ vs ++ [";"%char]]> (<[1%nat := vs]> ∅)).
Proof.
  intros Hpre Hsemi Hnl.
  rewrite search_skip_lit by done.
  apply search_here. unfold match_here. rewrite m_lit.
  cbn [m]. apply (star_loop_lazy_any (m AnyChar)); auto.
  - intros d1 c d2 ->. cbn -[Ascii.eqb].
    apply Forall_app in Hsemi as [_ Hsemi].
    apply Forall_cons in Hsemi as [Hc _].
    by rewrite Ascii.eqb_sym, Hc.
  - rewrite length_app. lia.
Qed.

Lemma parse_train_error :
  parse "Train_error=(.*?);" =
  Some (lit (list_ascii_of_string "Train_error=")
          (Seq (Group 1 (Star false AnyChar)) (Chr ";"))).
Proof. vm_compute. reflexivity. Qed.

Lemma parse_valid_error :
  parse "Valid_error=(.*?);" =
  Some (lit (list_ascii_of_string "Valid_error=")
          (Seq (Group 1 (Star false AnyChar)) (Chr ";"))).
Proof. vm_compute. reflexivity. Qed.

Lemma lacks_spec (a : ascii) (s : string) :
  lacks a s = true →
  Forall (λ c, Ascii.eqb a c = false) (list_ascii_of_string s).
Proof.
  unfold lacks. intros H. apply Is_true_true, forallb_True in H.
  eapply Forall_impl; [done|]. intros c Hc. cbv beta in Hc.
  rewrite Ascii.eqb_sym. by apply negb_true_iff, Is_true_true.
Qed.

Lemma plain_value_spec (s : string) :
  plain_value s = true →
  Forall (λ c, Ascii.eqb c ";" = false) (list_ascii_of_string s) ∧
  Forall (λ c, Ascii.eqb c "010" = false) (list_ascii_of_string s).
Proof.
  unfold plain_value. intros H. apply Is_true_true, forallb_True in H.
  split; (eapply Forall_impl; [done|]); intros c Hc; cbv beta in Hc;
    apply Is_true_true, andb_true_iff in Hc as [H1 H2];
    by apply negb_true_iff.
Qed.

Lemma error_line_chars (pre key value post : string) :
  list_ascii_of_string (error_line pre key value post) =
  list_ascii_of_string pre ++ list_ascii_of_string key ++
  list_ascii_of_string value ++ ";"%char :: list_ascii_of_string post.
Proof. unfold error_line. by rewrite !list_ascii_of_string_app. Qed.

(** X4: the patterns of the example capture, lazily, the text between the
    key and the first semicolon after it; the text may be empty. *)
Theorem example_patterns_capture_up_to_semicolon (pre value post : string) :
  plain_value value = true →
  (lacks "T" pre = true →
   search "Train_error=(.*?);" (error_line pre "Train_error=" value post) =
     Some [Some value]) ∧
  (lacks "V" pre = true →
   search "Valid_error=(.*?);" (error_line pre "Valid_error=" value post) =
     Some [Some value]).
Proof.
  intros [Hsemi Hnl]%plain_value_spec. split; intros Hpre%lacks_spec.
  - eapply search_result; [apply parse_train_error|reflexivity|].
    rewrite error_line_chars.
    by apply (search_lazy_value "T" (list_ascii_of_string "rain_error=")).
  - eapply search_result; [apply parse_valid_error|reflexivity|].
    rewrite error_line_chars.
    by apply (search_lazy_value "V" (list_ascii_of_string "alid_error=")).
Qed.

Lemma example_patterns_capture_up_to_semicolon_witness :
  search "Train_error=(.*?);"
    (error_line "epoch 3: " "Train_error=" "0.25" " Valid_error=0.5;") =
    Some [Some "0.25"] ∧
  search "Valid_error=(.*?);" (error_line "" "Valid_error=" "" "") =
    Some [Some ""].
Proof.
  split.
  - apply (example_patterns_capture_up_to_semicolon
             "epoch 3: " "0.25" " Valid_error=0.5;"); reflexivity.
  - apply (example_patterns_capture_up_to_semicolon "" "" ""); reflexivity.
Defined.

(** ** Numbers the patterns accept *)

Lemma is_numeral_numeral (s : string) :
  is_numeral s = true → numeral (list_ascii_of_string s).
Proof.
  unfold is_numeral, numeral. destruct (list_ascii_of_string s) as [|c cs]; [done|].
  intros H. split; [done|]. apply Is_true_true, forallb_True in H.
  eapply Forall_impl; [done|]. intros x Hx. by apply Is_true_true.
Qed.

(** X1: the four patterns capture any non-empty run of digits and points
    that stands in the place of a number, whether or not it reads as a
    number. *)
Theorem metric_patterns_accept_any_numeral
  (pre loss acc val_loss val_acc post : string) :
  is_numeral loss = true → is_numeral acc = true →
  is_numeral val_loss = true → is_numeral val_acc = true →
  free_of "l" "v" pre = true → ends_number post = true →
  (λ p, search p (epoch_line pre loss acc val_loss val_acc post))
    <$> metric_regexes metric_definitions =
  [Some [Some loss]; Some [Some acc]; Some [Some val_acc]; Some [Some val_loss]].
Proof.
  intros N1%is_numeral_numeral N2%is_numeral_numeral
         N3%is_numeral_numeral N4%is_numeral_numeral Hpre Hpost.
  apply free_of_spec in Hpre as [Hl Hv].
  apply ends_number_stops in Hpost.
  change (metric_regexes metric_definitions) with
    ["loss: ([0-9\.]+) - acc: [0-9\.]+"; "loss: [0-9\.]+ - acc: ([0-9\.]+)";
     "val_loss: [0-9\.]+ - val_acc: ([0-9\.]+)";
     "val_loss: ([0-9\.]+) - val_acc: [0-9\.]+"].
  assert (Forall (λ c, Ascii.eqb "v" c = false)
            (list_ascii_of_string pre ++ list_ascii_of_string "loss: " ++
             list_ascii_of_string loss ++ list_ascii_of_string " - acc: " ++
             list_ascii_of_string acc ++ list_ascii_of_string " - ")) as Hv'.
  { repeat (apply Forall_app; split); auto using numeral_free_of.
    all: repeat constructor. }
  cbn [fmap list_fmap]. repeat f_equal.
  - eapply search_result; [apply parse_train_loss|reflexivity|].
    rewrite epoch_line_chars.
    apply (search_first_number "l" (list_ascii_of_string "oss: ")
             (list_ascii_of_string " - acc: ")); auto.
    all: done.
  - eapply search_result; [apply parse_train_accuracy|reflexivity|].
    rewrite epoch_line_chars.
    apply (search_second_number "l" (list_ascii_of_string "oss: ")
             (list_ascii_of_string " - acc: ")); auto.
    all: done.
  - eapply search_result; [apply parse_validation_accuracy|reflexivity|].
    rewrite epoch_line_validation.
    apply (search_second_number "v" (list_ascii_of_string "al_loss: ")
             (list_ascii_of_string " - val_acc: ")); auto.
    all: try done. by rewrite app_nil_r.
  - eapply search_result; [apply parse_validation_loss|reflexivity|].
    rewrite epoch_line_validation.
    apply (search_first_number "v" (list_ascii_of_string "al_loss: ")
             (list_ascii_of_string " - val_acc: ")); auto.
    all: try done. by rewrite app_nil_r.
Qed.

Lemma metric_patterns_accept_any_numeral_witness :
  (λ p, search p (epoch_line "" "1.2.3" "..." "7" "0.5." ""))
    <$> metric_regexes metric_definitions =
  [Some [Some "1.2.3"]; Some [Some "..."]; Some [Some "0.5."]; Some [Some "7"]] ∧
  is_decimal <$> ["1.2.3"; "..."; "0.5."] = [false; false; false].
Proof.
  split; [|reflexivity].
  apply (metric_patterns_accept_any_numeral "" "1.2.3" "..." "7" "0.5." "");
    reflexivity.
Defined.

(** ** Where the train patterns do not match *)

Lemma star_loop_class_none negated items step (k : cont) (ds : list ascii) :
  (∀ s caps k', step s caps k' = m (Class negated items) s caps k') →
  ∀ fuel acc rest caps,
    Forall (λ c, in_class negated items c = true) ds →
    stops negated items rest →
    (∀ d1 d2, ds = d1 ++ d2 → k (acc ++ d1) (d2 ++ rest) caps = None) →
    star_loop step true k fuel acc (ds ++ rest) caps = None.
Proof.
  intros Hstep.
  induction ds as [|c ds IH]; intros fuel acc rest caps Hds Hrest Hk.
  - pose proof (Hk [] [] eq_refl) as H0. rewrite app_nil_r in H0. simpl in H0.
    destruct fuel as [|fuel]; simpl; [by rewrite H0|].
    rewrite Hstep. destruct rest as [|c rest]; simpl in *; [by rewrite H0|].
    by rewrite Hrest, H0.
  - pose proof (Hk [] (c :: ds) eq_refl) as H0. rewrite app_nil_r in H0.
    simpl in H0.
    destruct fuel as [|fuel]; simpl; [by rewrite H0|].
    apply Forall_cons in Hds as [Hc Hds].
    rewrite Hstep. simpl. rewrite Hc.
    replace (length (ds ++ rest) <? S (length (ds ++ rest)))%nat with true
      by (symmetry; apply Nat.ltb_lt; lia).
    rewrite IH, H0; auto.
    intros d1 d2 ->. rewrite <- app_assoc. by apply (Hk (c :: d1) d2).
Qed.

Lemma plus_class_none negated items (k : cont) (ds rest : list ascii) caps :
  Forall (λ c, in_class negated items c = true) ds →
  stops negated items rest →
  (∀ d1 d2, ds = d1 ++ d2 → k d1 (d2 ++ rest) caps = None) →
  m (Plus true (Class negated items)) (ds ++ rest) caps k = None.
Proof.
  intros Hds Hrest Hk. destruct ds as [|c ds].
  - destruct rest as [|c rest]; [done|]. simpl in *. by rewrite Hrest.
  - apply Forall_cons in Hds as [Hc Hds]. simpl. rewrite Hc.
    apply (star_loop_class_none negated items); auto.
    intros d1 d2 ->. by apply (Hk (c :: d1) d2).
Qed.

(** Literal text does not match where the subject has another character. *)
Lemma m_lit_mismatch (a c : ascii) (l : list ascii) (r : regex)
  (s : list ascii) caps (k : cont) :
  Ascii.eqb a c = false → m (lit (a :: l) r) (c :: s) caps k = None.
Proof.
  intros H. change (lit (a :: l) r) with (Seq (Chr a) (lit l r)).
  cbn [m]. by rewrite H.
Qed.

Lemma search_step (r : regex) (c : ascii) (s : list ascii) :
  match_here r (c :: s) = None → search_from r (c :: s) = search_from r s.
Proof. intros H. simpl. by rewrite H. Qed.

Lemma search_end (a : ascii) (l : list ascii) (r : regex) :
  search_from (lit (a :: l) r) [] = None.
Proof. done. Qed.

Lemma search_none (p line : string) (r : regex) :
  parse p = Some r →
  search_from r (list_ascii_of_string line) = None →
  search p line = None.
Proof. intros Hp Hs. unfold search. rewrite Hp. simpl. by rewrite Hs. Qed.

Lemma m_seq (r1 r2 : regex) (s : list ascii) caps (k : cont) :
  m (Seq r1 r2) s caps k =
  m r1 s caps (λ m1 s1 caps1,
    m r2 s1 caps1 (λ m2 s2 caps2, k (m1 ++ m2) s2 caps2)).
Proof. done. Qed.

Lemma m_group (i : nat) (r : regex) (s : list ascii) caps (k : cont) :
  m (Group i r) s caps k =
  m r s caps (λ m1 s1 caps1, k m1 s1 (<[i := m1]> caps1)).
Proof. done. Qed.

(** After "loss: " and a number, a pattern that goes on with " - acc: " does
    not match text that goes on with " - val_acc: ". *)
Lemma no_train_match_here (r1 r2 : regex) (n rest : list ascii) :
  (r1 = Group 1 number ∨ r1 = number) →
  numeral n →
  match_here
    (lit (list_ascii_of_string "loss: ")
       (Seq r1 (lit (list_ascii_of_string " - acc: ") r2)))
    (list_ascii_of_string "loss: " ++ n ++
     list_ascii_of_string " - val_acc: " ++ rest) = None.
Proof.
  intros Hr1 [Hne Hn]. unfold match_here. rewrite m_lit.
  assert (∀ caps (f : list ascii → captures → captures)
            (K : list ascii → cont),
            m number (n ++ list_ascii_of_string " - val_acc: " ++ rest) caps
              (λ m1 s1 caps1,
                 m (lit (list_ascii_of_string " - acc: ") r2) s1 (f m1 caps1)
                   (K m1)) = None) as Hnum.
  { intros caps f K. apply plus_class_none; [done|done|].
    intros d1 d2 ->. destruct d2 as [|c d2].
    - reflexivity.
    - apply Forall_app in Hn as [_ Hn]. apply Forall_cons in Hn as [Hc _].
      apply m_lit_mismatch.
      destruct (Ascii.eqb_spec " " c) as [<-|]; [done|done]. }
  destruct Hr1 as [->| ->]; rewrite m_seq.
  - rewrite m_group. apply (Hnum ∅ (λ m1 caps1, <[1%nat := m1]> caps1)).
  - apply (Hnum ∅ (λ m1 caps1, caps1)).
Qed.

Lemma match_here_mismatch (a b c : ascii) (l : list ascii) (r : regex)
  (s : list ascii) :
  Ascii.eqb b c = false → match_here (lit (a :: b :: l) r) (a :: c :: s) = None.
Proof.
  intros H. unfold match_here.
  change (lit (a :: b :: l) r) with (Seq (Chr a) (Seq (Chr b) (lit l r))).
  cbn [m]. by rewrite Ascii.eqb_refl, H.
Qed.

Lemma search_skip_cons (a c : ascii) (l : list ascii) (r : regex)
  (s : list ascii) :
  Ascii.eqb a c = false →
  search_from (lit (a :: l) r) (c :: s) = search_from (lit (a :: l) r) s.
Proof. intros H. apply (search_skip_lit a l r [c] s). by constructor. Qed.

Lemma search_validation_only (r1 r2 : regex) (pre n3 n4 post : list ascii) :
  (r1 = Group 1 number ∨ r1 = number) →
  Forall (λ c, Ascii.eqb "l" c = false) pre →
  Forall (λ c, Ascii.eqb "l" c = false) post →
  numeral n3 → numeral n4 →
  search_from
    (lit (list_ascii_of_string "loss: ")
       (Seq r1 (lit (list_ascii_of_string " - acc: ") r2)))
    (pre ++ list_ascii_of_string "val_loss: " ++ n3 ++
     list_ascii_of_string " - val_acc: " ++ n4 ++ post) = None.
Proof.
  intros Hr1 Hpre Hpost N3 N4.
  pose proof (numeral_free_of "l" n3 eq_refl N3) as L3.
  pose proof (numeral_free_of "l" n4 eq_refl N4) as L4.
  set (r := Seq r1 (lit (list_ascii_of_string " - acc: ") r2)).
  change (list_ascii_of_string "loss: ") with
    ("l"%char :: list_ascii_of_string "oss: ").
  (* up to the l of "val" *)
  change (list_ascii_of_string "val_loss: ") with
    (list_ascii_of_string "va" ++
     "l"%char :: "_"%char :: list_ascii_of_string "loss: ").
  rewrite <- (app_assoc (list_ascii_of_string "va")), (app_assoc pre).
  rewrite search_skip_lit
    by (apply Forall_app; split; [done|by repeat constructor]).
  cbn [app]. rewrite search_step by by apply match_here_mismatch.
  (* the underscore, then "loss: " and the number *)
  rewrite search_skip_cons by done.
  change (list_ascii_of_string "loss: " ++ ?x) with
    ("l"%char :: list_ascii_of_string "oss: " ++ x).
  rewrite search_step by exact (no_train_match_here r1 r2 n3 _ Hr1 N3).
  (* up to the l of "val_acc" *)
  change (list_ascii_of_string " - val_acc: ") with
    (list_ascii_of_string " - va" ++
     "l"%char :: "_"%char :: list_ascii_of_string "acc: ").
  rewrite <- (app_assoc (list_ascii_of_string " - va")).
  rewrite (app_assoc n3), (app_assoc (list_ascii_of_string "oss: ")).
  rewrite search_skip_lit
    by (repeat (apply Forall_app; split); [by repeat constructor|done|
        by repeat constructor]).
  cbn [app]. rewrite search_step by by apply match_here_mismatch.
  (* the rest of the line *)
  rewrite search_skip_cons by done.
  rewrite <- (app_nil_r post), !app_assoc.
  rewrite search_skip_lit; [done|].
  repeat (apply Forall_app; split); try done; by repeat constructor.
Qed.

Lemma validation_line_chars (pre val_loss val_acc post : string) :
  list_ascii_of_string (validation_line pre val_loss val_acc post) =
  list_ascii_of_string pre ++ list_ascii_of_string "val_loss: " ++
  list_ascii_of_string val_loss ++ list_ascii_of_string " - val_acc: " ++
  list_ascii_of_string val_acc ++ list_ascii_of_string post.
Proof. unfold validation_line. by rewrite !list_ascii_of_string_app. Qed.

(** X3: on a line that reports the validation metrics only, the two train
    patterns (which are well-formed patterns) match nowhere: the text
    "loss: " inside "val_loss: " does not make them match. *)
Theorem train_patterns_ignore_validation_metrics
  (pre val_loss val_acc post : string) :
  is_numeral val_loss = true → is_numeral val_acc = true →
  lacks "l" pre = true → lacks "l" post = true →
  (λ p, search p (validation_line pre val_loss val_acc post))
    <$> take 2 (metric_regexes metric_definitions) = [None; None] ∧
  Forall (λ p, is_Some (parse p)) (take 2 (metric_regexes metric_definitions)).
Proof.
  intros N3%is_numeral_numeral N4%is_numeral_numeral
         Hpre%lacks_spec Hpost%lacks_spec.
  change (take 2 (metric_regexes metric_definitions)) with
    ["loss: ([0-9\.]+) - acc: [0-9\.]+"; "loss: [0-9\.]+ - acc: ([0-9\.]+)"].
  split.
  - cbn [fmap list_fmap]. f_equal; [|f_equal].
    + eapply search_none; [apply parse_train_loss|].
      rewrite validation_line_chars. apply search_validation_only; auto.
    + eapply search_none; [apply parse_train_accuracy|].
      rewrite validation_line_chars. apply search_validation_only; auto.
  - apply Forall_cons_2; [|apply Forall_cons_2; [|apply Forall_nil_2]].
    + rewrite parse_train_loss. by eexists.
    + rewrite parse_train_accuracy. by eexists.
Qed.

Lemma train_patterns_ignore_validation_metrics_witness :
  (λ p, search p (validation_line " - 3s - " "1.1111" "0.6000" ""))
    <$> take 2 (metric_regexes metric_definitions) = [None; None].
Proof.
  apply (train_patterns_ignore_validation_metrics
           " - 3s - " "1.1111" "0.6000" ""); vm_compute; reflexivity.
Defined.

(** ** Every match is a match of the pattern *)

Lemma star_loop_sound (r : regex) (greedy : bool) :
  (∀ s caps k c,
     m r s caps k = Some c →
     ∃ t s1 caps1, s = t ++ s1 ∧ matches r t caps caps1 ∧ k t s1 caps1 = Some c) →
  ∀ fuel k acc s caps c,
    star_loop (m r) greedy k fuel acc s caps = Some c →
    ∃ t s1 caps1,
      s = t ++ s1 ∧ matches (Star greedy r) t caps caps1 ∧
      k (acc ++ t) s1 caps1 = Some c.
Proof.
  intros IHr. induction fuel as [|fuel IH]; intros k acc s caps c H.
  - simpl in H.
    assert (k acc s caps = Some c) as Hk by (by destruct greedy, (k acc s caps)).
    exists [], s, caps. rewrite app_nil_r. split; [done|]. split; [constructor|done].
  - simpl in H.
    assert (k acc s caps = Some c ∨
            m r s caps (λ m1 s1 caps1,
              if (length s1 <? length s)%nat
              then star_loop (m r) greedy k fuel (acc ++ m1) s1 caps1
              else None) = Some c) as [Hk|Hmore].
    { destruct greedy.
      - destruct (m r s caps _) eqn:E; [right; congruence|by left].
      - destruct (k acc s caps) eqn:E; [left; congruence|by right]. }
    + exists [], s, caps. rewrite app_nil_r. split; [done|].
      split; [constructor|done].
    + apply IHr in Hmore as (t1 & s1 & caps1 & -> & Hm1 & Hloop).
      destruct (length s1 <? length (t1 ++ s1))%nat; [|done].
      apply IH in Hloop as (t2 & s2 & caps2 & -> & Hm2 & Hk).
      exists (t1 ++ t2), s2, caps2. rewrite <- !app_assoc in *.
      split; [done|]. split; [by econstructor|done].
Qed.

Lemma m_sound (r : regex) :
  ∀ s caps k c,
    m r s caps k = Some c →
    ∃ t s1 caps1, s = t ++ s1 ∧ matches r t caps caps1 ∧ k t s1 caps1 = Some c.
Proof.
  induction r as [|a| |negated items|r1 IH1 r2 IH2|r1 IH1 r2 IH2|greedy r IH
                 |greedy r IH|greedy r IH|i r IH|r IH];
    intros s caps k c H; simpl in H.
  - exists [], s, caps. split; [done|]. split; [constructor|done].
  - destruct s as [|c' s']; [done|].
    destruct (Ascii.eqb a c') eqn:E; [|done]. apply Ascii.eqb_eq in E as <-.
    exists [a], s', caps. split; [done|]. split; [constructor|done].
  - destruct s as [|c' s']; [done|].
    destruct (Ascii.eqb c' "010") eqn:E; [done|].
    exists [c'], s', caps. split; [done|]. split; [by constructor|done].
  - destruct s as [|c' s']; [done|].
    destruct (in_class negated items c') eqn:E; [|done].
    exists [c'], s', caps. split; [done|]. split; [by constructor|done].
  - apply IH1 in H as (t1 & s1 & caps1 & -> & Hm1 & H).
    apply IH2 in H as (t2 & s2 & caps2 & -> & Hm2 & H).
    exists (t1 ++ t2), s2, caps2. rewrite <- app_assoc.
    split; [done|]. split; [by econstructor|done].
  - destruct (m r1 s caps k) eqn:E.
    + injection H as ->. apply IH1 in E as (t & s1 & caps1 & -> & Hm & Hk).
      exists t, s1, caps1. split; [done|]. split; [by apply matches_alt_l|done].
    + apply IH2 in H as (t & s1 & caps1 & -> & Hm & Hk).
      exists t, s1, caps1. split; [done|]. split; [by apply matches_alt_r|done].
  - by apply (star_loop_sound r greedy IH) in H.
  - apply IH in H as (t1 & s1 & caps1 & -> & Hm1 & H).
    apply (star_loop_sound r greedy IH) in H as (t2 & s2 & caps2 & -> & Hm2 & H).
    exists (t1 ++ t2), s2, caps2. rewrite <- app_assoc.
    split; [done|]. split; [by econstructor|done].
  - assert (k [] s caps = Some c ∨ m r s caps k = Some c) as [Hk|Hm].
    { destruct greedy.
      - destruct (m r s caps k) eqn:E; [right; congruence|by left].
      - destruct (k [] s caps) eqn:E; [left; congruence|by right]. }
    + exists [], s, caps. split; [done|]. split; [constructor|done].
    + apply IH in Hm as (t & s1 & caps1 & -> & Hm & Hk).
      exists t, s1, caps1. split; [done|]. split; [by constructor|done].
  - apply IH in H as (t & s1 & caps1 & -> & Hm & Hk).
    exists t, s1, (<[i := t]> caps1). split; [done|]. split; [by constructor|done].
  - apply IH in H as (t & s1 & caps1 & -> & Hm & Hk).
    exists t, s1, caps1. split; [done|]. split; [by constructor|done].
Qed.

Lemma search_from_inv (r : regex) (s : list ascii) (c : captures) :
  search_from r s = Some c → ∃ s', match_here r s' = Some c.
Proof.
  induction s as [|a s IH]; simpl.
  - destruct (match_here r []) eqn:E; [|done]. intros [= <-]. by exists [].
  - destruct (match_here r (a :: s)) eqn:E; [intros [= <-]; by eexists|].
    apply IH.
Qed.

Lemma matches_star_class greedy negated items t c c1 :
  matches (Star greedy (Class negated items)) t c c1 →
  c1 = c ∧ Forall (λ a, in_class negated items a = true) t.
Proof.
  remember (Star greedy (Class negated items)) as r eqn:Hr.
  induction 1 as [| | | | | | | |g r t1 t2 c c1 c2 H1 _ H2 IH| | | | |];
    try discriminate Hr.
  - done.
  - injection Hr as -> ->. destruct (IH eq_refl) as [-> Ht2].
    inversion H1; subst. split; [done|]. by constructor.
Qed.

Lemma matches_number t c c1 : matches number t c c1 → c1 = c ∧ numeral t.
Proof.
  intros H. inversion H as [| | | | | | | | |g r t1 t2 c' c1' c2' H1 H2| | | |];
    subst.
  apply matches_star_class in H2 as [-> Ht2].
  inversion H1; subst. split; [done|]. split; [done|]. by constructor.
Qed.

Lemma matches_lit cs r t c c1 :
  matches (lit cs r) t c c1 → ∃ t', t = cs ++ t' ∧ matches r t' c c1.
Proof.
  revert t. induction cs as [|a cs IH]; intros t H; simpl in H.
  - by exists t.
  - inversion H as [| | | |r1 r2 t1 t2 c' c1' c2' H1 H2| | | | | | | | |]; subst.
    inversion H1; subst. apply IH in H2 as (t' & -> & H2). by exists t'.
Qed.

Lemma matches_first_number l1 l2 t c1 :
  matches (lit l1 (Seq (Group 1 number) (lit l2 number))) t ∅ c1 →
  ∃ n, numeral n ∧ c1 = <[1%nat := n]> ∅.
Proof.
  intros (t' & -> & H)%matches_lit.
  inversion H as [| | | |r1 r2 t1 t2 c' c1' c2' H1 H2| | | | | | | | |]; subst.
  apply matches_lit in H2 as (t3 & -> & H2).
  apply matches_number in H2 as [-> _].
  inversion H1 as [| | | | | | | | | | | |i r t c c0 H0|]; subst.
  apply matches_number in H0 as [-> Hn]. by exists t1.
Qed.

Lemma matches_second_number l1 l2 t c1 :
  matches (lit l1 (Seq number (lit l2 (Group 1 number)))) t ∅ c1 →
  ∃ n, numeral n ∧ c1 = <[1%nat := n]> ∅.
Proof.
  intros (t' & -> & H)%matches_lit.
  inversion H as [| | | |r1 r2 t1 t2 c' c1' c2' H1 H2| | | | | | | | |]; subst.
  apply matches_number in H1 as [-> _].
  apply matches_lit in H2 as (t3 & -> & H2).
  inversion H2 as [| | | | | | | | | | | |i r t c c0 H0|]; subst.
  apply matches_number in H0 as [-> Hn]. by exists t3.
Qed.

Lemma numeral_is_numeral (n : list ascii) :
  numeral n → is_numeral (string_of_list_ascii n) = true.
Proof.
  intros [Hne Hn]. unfold is_numeral.
  rewrite list_ascii_of_string_of_list_ascii.
  destruct n as [|a n]; [done|].
  apply Is_true_true, forallb_True. eapply Forall_impl; [done|].
  intros x Hx. by apply Is_true_true.
Qed.

Lemma search_one_numeral (p line : string) (r : regex)
  (gs : list (option string)) :
  parse p = Some r → ngroups r = 1%nat →
  (∀ t c1, matches r t ∅ c1 → ∃ n, numeral n ∧ c1 = <[1%nat := n]> ∅) →
  search p line = Some gs →
  ∃ n, gs = [Some n] ∧ is_numeral n = true.
Proof.
  intros Hp Hg Hshape. unfold search, groups. rewrite Hp. simpl.
  destruct (search_from r (list_ascii_of_string line)) as [c|] eqn:E; [|done].
  rewrite Hg. simpl. intros [= <-].
  apply search_from_inv in E as [s' E].
  apply m_sound in E as (t & s1 & caps1 & _ & Hm & [= <-]).
  apply Hshape in Hm as (n & Hn & ->).
  exists (string_of_list_ascii n).
  rewrite lookup_insert_ne by done. rewrite lookup_insert_eq. simpl.
  split; [done|]. by apply numeral_is_numeral.
Qed.

(** X2: on any line, when one of the four patterns matches, the match has
    exactly one group, the group took part in the match, and the text it
    captured is a non-empty run of digits and points. *)
Theorem metric_patterns_capture_only_numerals (p line : string)
  (gs : list (option string)) :
  p ∈ metric_regexes metric_definitions →
  search p line = Some gs →
  ∃ n, gs = [Some n] ∧ is_numeral n = true.
Proof.
  intros Hp.
  change (metric_regexes metric_definitions) with
    ["loss: ([0-9\.]+) - acc: [0-9\.]+"; "loss: [0-9\.]+ - acc: ([0-9\.]+)";
     "val_loss: [0-9\.]+ - val_acc: ([0-9\.]+)";
     "val_loss: ([0-9\.]+) - val_acc: [0-9\.]+"] in Hp.
  repeat (apply elem_of_cons in Hp as [->|Hp]); [..|by apply elem_of_nil in Hp].
  - eapply search_one_numeral; [apply parse_train_loss|reflexivity|].
    apply matches_first_number.
  - eapply search_one_numeral; [apply parse_train_accuracy|reflexivity|].
    apply matches_second_number.
  - eapply search_one_numeral; [apply parse_validation_accuracy|reflexivity|].
    apply matches_second_number.
  - eapply search_one_numeral; [apply parse_validation_loss|reflexivity|].
    apply matches_first_number.
Qed.

Lemma metric_patterns_capture_only_numerals_witness :
  ∃ n, [Some "1.2345"] = [Some n] ∧ is_numeral n = true.
Proof.
  apply (metric_patterns_capture_only_numerals
           "loss: ([0-9\.]+) - acc: [0-9\.]+" Demo.line).
  - apply list_elem_of_here.
  - vm_compute. reflexivity.
Defined.

(** ** Failures and completion *)

#[local] Arguments failure_explained : simpl never.

Lemma notebook_failures cfg : always (notebook cfg) [] (failure_explained cfg).
Proof.
  apply always_run_cells. unfold later_cells.
  repeat sym_step.
  all: unfold failure_explained; intros x' Hx'.
  all: try discriminate Hx'.
  all: injection Hx' as <-.
  all: first [ left; eexists; reflexivity
             | right; left; find_event
             | right; right; eexists; eassumption ].
Qed.



#[local] Arguments completes_if_answered : simpl never.

Ltac sym_head_kind h :=
  lazymatch h with
  | is_object ?v =>
      first [ is_var v;
              let h := fresh "h" in let H := fresh "Hkind" in
              destruct (is_object_cases v) as [[h ->]|H]; [|rewrite H]
            | progress cbn ]
  | str_add (VStr ?a) ?v =>
      first [ is_var v;
              let b := fresh "b" in let H := fresh "Hkind" in
              destruct (str_add_cases a v) as [[b ->]|H]; [|rewrite H]
            | progress cbn ]
  | _ => sym_head h
  end.

Ltac sym_step_kind :=
  lazymatch goal with
  | |- always_cells (_ :: _) _ _ _ => rewrite always_cells_cons
  | |- always_cells [] _ _ _ => rewrite always_cells_nil
  | |- always (?c ?ρ) ?t ?Q =>
      first [ open_cell c ρ t Q
            | let h := head_prog (c ρ) in sym_head_kind h ]
  | |- always ?p _ _ => let h := head_prog p in sym_head_kind h
  | |- _ ∧ _ => split
  | |- ∀ _, _ => intro
  | |- match _ with Done _ => _ | Failed _ => _ end => progress cbn
  end.

Lemma Forall_last {A : Type} (P : A → Prop) (l : list A) (x : A) :
  Forall P l → last l = Some x → P x.
Proof.
  intros H Hx. apply (proj1 (Forall_forall _ _) H). by apply last_Some_elem_of.
Qed.

Ltac bound :=
  repeat first [ apply Forall_nil_2
               | apply Forall_cons_2;
                 [eexists;
                  repeat first [ by apply lookup_insert_eq
                               | rewrite lookup_insert_ne by done ]|] ].

Ltac usable cfg Hok :=
  match goal with
  | Hc : cfg ?ρ = _ |- _ =>
      let E := fresh in let K := fresh in
      destruct (Hok ρ) as (? & E & K); [unfold names_before_estimator; bound|];
      rewrite E in Hc;
      first [ discriminate Hc | injection Hc as <-; congruence ]
  end.

Ltac blame Hall v H :=
  cbn [app] in Hall;
  lazymatch type of Hall with
  | Forall _ ?t =>
      lazymatch t with
      | context [(?e, Returned v)] =>
          let G := fresh in
          assert (G : well_answered (e, Returned v) = true)
            by (apply (proj1 (Forall_forall _ _) Hall); find_event);
          cbn in G; destruct v; first [discriminate G | discriminate H]
      end
  end.

Ltac refuted Hall :=
  first [ discriminate (Forall_last _ _ _ Hall eq_refl)
        | match goal with
          | H : is_object ?v = Throw _ |- _ => blame Hall v H
          | H : str_add _ ?v = Throw _ |- _ => blame Hall v H
          | H : py_int ?v = Throw _ |- _ => blame Hall v H
          end ].

Lemma notebook_completes cfg :
  config_usable cfg → always (notebook cfg) [] completes_if_answered.
Proof.
  intros Hok.
  apply always_run_cells. unfold later_cells.
  repeat sym_step_kind.
  all: unfold completes_if_answered; intros Hall.
  all: try reflexivity.
  all: exfalso.
  all: first [refuted Hall | usable cfg Hok].
Qed.

Lemma forallb_Forall {A : Type} (f : A → bool) (l : list A) :
  forallb f l = true → Forall (λ x, f x = true) l.
Proof.
  induction l as [|x l IH]; cbn; [constructor|].
  intros [Hx Hl]%andb_true_iff. constructor; [done|by apply IH].
Qed.


Lemma demo_config_usable : config_usable Demo.config.
Proof.
  intros ρ H.
  destruct (proj1 (Forall_forall _ _) H "role") as [r Hr]; [find_event|].
  unfold Demo.config. rewrite Hr. eexists. split; reflexivity.
Qed.


(** ** Imports *)

Lemma notebook_imports cfg :
  always (notebook cfg) [] (λ t _, imports_first [] t = true).
Proof.
  apply always_run_cells. unfold later_cells.
  repeat sym_step.
  all: vm_compute; reflexivity.
Qed.


(** A call that no import has provided is a violation. *)
Example imports_first_rejects :
  imports_first ["sagemaker"] [(Call (Fn "TensorFlow") [] [], Returned VNone)]
  = false.
Proof. reflexivity. Qed.

(** ** Data flow between the cells *)

Lemma notebook_flows cfg : always (notebook cfg) [] (when_done flows).
Proof.
  apply always_run_cells. unfold later_cells.
  repeat sym_step.
  all: intros ρ' Hρ'; try discriminate Hρ'.
  injection Hρ' as <-.
  split; [|split].
  - eexists _, _, _, _, _, _, _, _, _, _, _, _, _. split; [|split].
    + unfold config_of. find_sublist.
    + unfold created; cbn. rewrite !component_of_config. reflexivity.
    + leaf.
  - eexists _, _, _, _, _, _, _, _, _, _. split; [find_sublist|].
    split; [reflexivity|]. leaf.
  - eexists _, _, _, _, _, _, _, _, _, _, _, _, _. split; [find_sublist|].
    unfold metrics_url. by rewrite !append_assoc.
Qed.







#[local] Arguments binds_only : simpl never.

Lemma cells_frame cfg (cell : env → prog env) (names : list string) (ρ : env) :
  (cell, names) ∈ assigns cfg → always (cell ρ) [] (binds_only names ρ).
Proof.
  intros Hcell. unfold assigns in Hcell.
  repeat (apply elem_of_cons in Hcell as [[= -> ->]|Hcell]);
    [..|by apply elem_of_nil in Hcell].
  all: repeat sym_step.
  all: unfold binds_only; intros ρ' Hρ'; try discriminate Hρ'.
  all: injection Hρ' as <-.
  all: split; [|bound].
  all: intros x Hx.
  all: repeat (apply not_elem_of_cons in Hx as [? Hx]).
  all: by rewrite ?lookup_insert_ne by done.
Qed.


Lemma assigns_lists_the_cells cfg :
  (assigns cfg).*1 = cell_03 :: later_cells cfg.
Proof. reflexivity. Qed.


(** ** Trial names, runs on the same answers, missing estimators *)

#[local] Arguments trials_named_by_second : simpl never.

Lemma trial_name_inj (p : string) (z1 z2 : Z) :
  Some (VStr (p +:+ pretty z1)) = Some (VStr (p +:+ pretty z2)) ↔ z1 = z2.
Proof.
  split; [|by intros ->].
  intros [= H]. apply (inj (String.app p)) in H. by apply (inj pretty) in H.
Qed.

Lemma notebook_trial_names cfg :
  always (notebook cfg) [] trials_named_by_second.
Proof.
  apply always_run_cells. unfold later_cells.
  repeat sym_step.
  all: unfold trials_named_by_second; cbn.
  all: intros now1 now2 kw1 kw2 r1 r2 Hclock Hcreate.
  all: try discriminate Hcreate.
  all: injection Hclock as <- <-; injection Hcreate as <- _ <- _.
  all: eexists _, _; split; [eassumption|]; split; [eassumption|].
  all: cbn; apply trial_name_inj.
Qed.



Lemma sim_scripted {A : Type} (R : A → A → Prop) (E : event → event → Prop)
  (p q : prog A) :
  sim R E p q →
  ∀ answers : list response,
    alike R E (run Demo.scripted answers p) (run Demo.scripted answers q).
Proof.
  induction 1 as [a b Hab|x|e1 e2 k1 k2 He _ IH]; intros answers.
  - split; [constructor|done].
  - split; [constructor|done].
  - destruct answers as [|[v|x] answers]; simpl.
    + split; [|done]. constructor; [done|constructor].
    + specialize (IH v answers). destruct IH as [Ht Ho].
      destruct (run Demo.scripted answers (k1 v)) as [t1 o1].
      destruct (run Demo.scripted answers (k2 v)) as [t2 o2].
      split; [|done]. constructor; done.
    + split; [|done]. constructor; [done|constructor].
Qed.




